(** * Location tracker: geofence evaluation and WebSocket broadcast

    A shallow embedding of the location ingestion route
    ([router.post('/')] of the locations router, with its helper
    [calculateDistance]) and of [WebSocketService]
    (src/services/websocket.service.js).

    JavaScript numbers are modelled as real numbers: rounding, NaN and the
    infinities of IEEE doubles are outside the model.  [Math.sin],
    [Math.cos] and [Math.sqrt] are the functions of the real-number
    library; [Math.atan2] is defined below from [atan].  Facts that rest on
    exact arithmetic (equalities between computed distances, the range of
    the haversine term) are therefore facts of the formula and are not
    stated of the running code; the theorems below use the distance only
    through comparisons the code makes with it. *)

From Stdlib Require Import Reals Lra.
From stdpp Require Import gmap strings list fin_maps sorting.

(** ** Numbers *)

Module JsMath.

(** [Math.atan2 y x]: the angle of the point (x, y), in (-PI, PI]. *)
Definition atan2 (y x : R) : R :=
  if Rlt_dec 0 x then atan (y / x)
  else if Rlt_dec x 0 then
    (if Rle_dec 0 y then atan (y / x) + PI else atan (y / x) - PI)%R
  else if Rlt_dec 0 y then (PI / 2)%R
  else if Rlt_dec y 0 then (- PI / 2)%R
  else 0%R.

(** [x <= y] as the boolean the code branches on. *)
Definition leb (x y : R) : bool :=
  if Rle_dec x y then true else false.

End JsMath.

(** ** Distance *)

(** A coordinate pair is the two-element array [[lon, lat]]. *)
Definition coords : Type := R * R.

(** [function calculateDistance(point1, point2)] *)
Definition calculateDistance (point1 point2 : coords) : R :=
  let '(lon1, lat1) := point1 in
  let '(lon2, lat2) := point2 in
  let R_ := 6371000%R in
  let phi1 := (lat1 * PI / 180)%R in
  let phi2 := (lat2 * PI / 180)%R in
  let dphi := ((lat2 - lat1) * PI / 180)%R in
  let dlam := ((lon2 - lon1) * PI / 180)%R in
  let a := (sin (dphi / 2) * sin (dphi / 2) +
            cos phi1 * cos phi2 *
            sin (dlam / 2) * sin (dlam / 2))%R in
  let c := (2 * JsMath.atan2 (sqrt a) (sqrt (1 - a)))%R in
  (R_ * c)%R.

(** ** Data model *)

(** A geofence of the device schema: [{ name, radius, center.coordinates }]. *)
Record Geofence := {
  name : string;
  radius : R;
  center : coords
}.

(** [device.lastLocation]: coordinates and the time they were stored. *)
Record LastLocation := {
  last_coordinates : coords;
  last_timestamp : Z
}.

(** The fields of a device document the route and the service read. *)
Record Device := {
  deviceId : string;
  lastLocation : option LastLocation;
  geofences : list Geofence
}.

Definition set_lastLocation (d : Device) (l : LastLocation) : Device :=
  {| deviceId := deviceId d; lastLocation := Some l; geofences := geofences d |}.

(** The payload of a [location_update] frame. *)
Record LocationData := {
  data_coordinates : coords;
  data_altitude : option R;
  data_speed : option R;
  data_accuracy : option R;
  data_timestamp : Z
}.

(** A document of the Location collection; [altitude], [speed] and
    [accuracy] have the schema's default 0. *)
Record Location := {
  loc_deviceId : string;
  loc_coordinates : coords;
  loc_altitude : R;
  loc_speed : R;
  loc_accuracy : R;
  loc_metadata : list (string * string);
  loc_timestamp : Z
}.

Inductive EventType := enter | exit.

(** The JSON text frames the server sends, before [JSON.stringify]. *)
Inductive Frame :=
| error_frame (message : string)
| subscribed (id : string)
| location_update (id : string) (data : LocationData)
| geofence_event (id : string) (eventType : EventType) (geofence : Geofence).

(** A WebSocket as the service sees it: its [readyState] and the frames
    handed to its [send], oldest first. *)
Record Socket := {
  readyState : nat;
  sent : list Frame
}.

Definition OPEN : nat := 1.

(** Connection handles are compared by identity ([conn === ws]). *)
Definition Conn : Type := nat.

(** The process state: the service's [connections] map, the sockets behind
    the handles, and the two collections. *)
Record World := {
  connections : gmap string Conn;
  sockets : gmap Conn Socket;
  locations : list Location;
  devices : gmap string Device
}.

Definition set_connections (f : gmap string Conn → gmap string Conn)
    (w : World) : World :=
  {| connections := f (connections w); sockets := sockets w;
     locations := locations w; devices := devices w |}.

Definition set_sockets (f : gmap Conn Socket → gmap Conn Socket)
    (w : World) : World :=
  {| connections := connections w; sockets := f (sockets w);
     locations := locations w; devices := devices w |}.

Definition set_locations (f : list Location → list Location)
    (w : World) : World :=
  {| connections := connections w; sockets := sockets w;
     locations := f (locations w); devices := devices w |}.

Definition set_devices (f : gmap string Device → gmap string Device)
    (w : World) : World :=
  {| connections := connections w; sockets := sockets w;
     locations := locations w; devices := f (devices w) |}.

(** ** Handlers as state transformers that may throw *)

Inductive Error :=
| ApiError (status : nat) (message : string)
| SyntaxError
| TypeError
| DbError
| CastError.

Inductive Result (A : Type) :=
| Ok (a : A)
| Throw (e : Error).
Arguments Ok {A} a.
Arguments Throw {A} e.

Definition M (A : Type) : Type := World → Result A * World.

Definition ret {A} (a : A) : M A := λ w, (Ok a, w).
Definition throw {A} (e : Error) : M A := λ w, (Throw e, w).
Definition bind {A B} (m : M A) (k : A → M B) : M B :=
  λ w, match m w with
       | (Ok a, w') => k a w'
       | (Throw e, w') => (Throw e, w')
       end.
Definition try_catch {A} (m : M A) (handler : Error → M A) : M A :=
  λ w, match m w with
       | (Ok a, w') => (Ok a, w')
       | (Throw e, w') => handler e w'
       end.
Definition modify (f : World → World) : M unit := λ w, (Ok tt, f w).
Definition gets {A} (f : World → A) : M A := λ w, (Ok (f w), w).

Notation "x <- m ;; k" := (bind m (λ x, k))
  (at level 100, m at next level, right associativity).
Notation "m ;;; k" := (bind m (λ _, k))
  (at level 100, right associativity).

(** The world a handler leaves behind. *)
Definition exec {A} (m : M A) (w : World) : World := snd (m w).

(** ** WebSocketService *)

(** [ws.send(JSON.stringify(frame))]: the frame is handed to the socket. *)
Definition ws_send (ws : Conn) (f : Frame) : M unit :=
  modify (set_sockets
    (alter (λ s, {| readyState := readyState s; sent := sent s ++ [f] |}) ws)).

(** What [JSON.parse(message)] gives the message handler, as far as the
    handler looks at it: the parse throws, or the value is [null] (reading a
    property of it throws), or it is a value whose [type] and [deviceId]
    properties are strings or undefined.  A [type] that is not a string
    fails the handler's test as an absent one does, and so does a falsy
    [deviceId] that is not a string.  A truthy [deviceId] that is not a
    string (a number, an object) has no counterpart here: the code would
    look it up and store it as a registry key that is not a string. *)
Inductive Message :=
| Unparseable
| JsonNull
| JsonValue (type : option string) (id : option string).

Definition JSON_parse (message : Message) : M (option (option string * option string)) :=
  match message with
  | Unparseable => throw SyntaxError
  | JsonNull => ret None
  | JsonValue t i => ret (Some (t, i))
  end.

(** [data.type] and [data.deviceId]; on [null] the read throws. *)
Definition properties (data : option (option string * option string))
  : M (option string * option string) :=
  match data with
  | None => throw TypeError
  | Some p => ret p
  end.

(** [data.type === 'subscribe' && data.deviceId]: the id when the test
    passes (a non-empty string is the only truthy string). *)
Definition subscribe_request (p : option string * option string) : option string :=
  match p with
  | (Some t, Some i) =>
      if String.eqb t "subscribe" && negb (String.eqb i "") then Some i else None
  | _ => None
  end.

(** [Device.findOne({ deviceId })].  The query casts the id through the
    schema, which trims it; the lookup here is by the id as it is given, so
    it stands for the query on the ids that [trim] leaves unchanged (see
    [unpadded]). *)
Definition Device_findOne (i : string) : M (option Device) :=
  gets (λ w, devices w !! i).

(** [ws.on('message', async (message) => ...)] *)
Definition on_message (ws : Conn) (message : Message) : M unit :=
  try_catch
    (data <- JSON_parse message ;;
     p <- properties data ;;
     match subscribe_request p with
     | Some i =>
         device <- Device_findOne i ;;
         match device with
         | None => ws_send ws (error_frame "Device not found")
         | Some _ =>
             modify (set_connections (<[i := ws]>)) ;;;
             ws_send ws (subscribed i)
         end
     | None => ret tt
     end)
    (λ _, ws_send ws (error_frame "Invalid message format")).

(** One step of the close handler's loop over [connections.entries()]. *)
Definition close_step (ws : Conn) (m : gmap string Conn)
    (entry : string * Conn) : gmap string Conn :=
  if decide (snd entry = ws) then delete (fst entry) m else m.

(** [ws.on('close', () => ...)] *)
Definition on_close (ws : Conn) : M unit :=
  modify (set_connections (λ m, foldl (close_step ws) m (map_to_list m))).

(** [broadcastLocation(deviceId, locationData)] *)
Definition broadcastLocation (i : string) (locationData : LocationData) : M unit :=
  connection <- gets (λ w, connections w !! i) ;;
  match connection with
  | Some c =>
      s <- gets (λ w, sockets w !! c) ;;
      match s with
      | Some s =>
          if decide (readyState s = OPEN)
          then ws_send c (location_update i locationData)
          else ret tt
      | None => ret tt
      end
  | None => ret tt
  end.

(** [broadcastGeofenceEvent(deviceId, eventType, geofence)] *)
Definition broadcastGeofenceEvent (i : string) (eventType : EventType)
    (geofence : Geofence) : M unit :=
  connection <- gets (λ w, connections w !! i) ;;
  match connection with
  | Some c =>
      s <- gets (λ w, sockets w !! c) ;;
      match s with
      | Some s =>
          if decide (readyState s = OPEN)
          then ws_send c (geofence_event i eventType geofence)
          else ret tt
      | None => ret tt
      end
  | None => ret tt
  end.

(** ** The ingestion route *)

(** [req.body.coordinates]: an array of numbers, or anything else
    (undefined, null, a non-array value). *)
Inductive JsCoordinates :=
| NotAnArray
| Array (elements : list R).

Record Body := {
  coordinates : JsCoordinates;
  altitude : option R;
  speed : option R;
  accuracy : option R;
  metadata : list (string * string)
}.

(** What the persistence layer and the clock do during one request: whether
    [location.save()] and [req.device.save()] succeed, and the current time
    (the clock readings of one request are taken to be the same). *)
Record Env := {
  location_save_ok : bool;
  device_save_ok : bool;
  now : Z
}.

Inductive Response :=
| Created (location : Location)       (* res.status(201).json(...) *)
| Next (error : Error).               (* next(error) *)

(** [if (!coordinates || !Array.isArray(coordinates) ||
         coordinates.length !== 2) throw new ApiError(400, ...)] *)
Definition validate (c : JsCoordinates) : M coords :=
  match c with
  | Array [lon; lat] => ret (lon, lat)
  | _ => throw (ApiError 400 "Valid coordinates are required")
  end.

(** [await location.save()] *)
Definition Location_save (env : Env) (location : Location) : M unit :=
  if location_save_ok env
  then modify (set_locations (λ l, l ++ [location]))
  else throw DbError.

(** [await req.device.save()] *)
Definition Device_save (env : Env) (device : Device) : M unit :=
  if device_save_ok env
  then modify (set_devices (<[deviceId device := device]>))
  else throw DbError.

(** The body of [for (const geofence of req.device.geofences)]. *)
Definition check_geofence (device : Device) (coordinates : coords)
    (geofence : Geofence) : M unit :=
  let distance := calculateDistance coordinates (center geofence) in
  let wasInside :=
    match lastLocation device with
    | Some l =>
        JsMath.leb (calculateDistance (last_coordinates l) (center geofence))
                   (radius geofence)
    | None => false
    end in
  let isInside := JsMath.leb distance (radius geofence) in
  if negb wasInside && isInside then
    broadcastGeofenceEvent (deviceId device) enter geofence
  else if wasInside && negb isInside then
    broadcastGeofenceEvent (deviceId device) exit geofence
  else ret tt.

Fixpoint for_of {A} (l : list A) (body : A → M unit) : M unit :=
  match l with
  | [] => ret tt
  | x :: l' => body x ;;; for_of l' body
  end.

(** [if (req.device.geofences && req.device.geofences.length > 0) { for ... }] *)
Definition check_geofences (device : Device) (coordinates : coords) : M unit :=
  match geofences device with
  | [] => ret tt
  | gs => for_of gs (check_geofence device coordinates)
  end.

(** [router.post('/', authenticateDevice, async (req, res, next) => ...)],
    after [authenticateDevice] has put the device document in [req.device]. *)
Definition post_location (env : Env) (req_device : Device) (body : Body)
  : M Response :=
  try_catch
    (point <- validate (coordinates body) ;;
     let location :=
       {| loc_deviceId := deviceId req_device;
          loc_coordinates := point;
          loc_altitude := default 0%R (altitude body);
          loc_speed := default 0%R (speed body);
          loc_accuracy := default 0%R (accuracy body);
          loc_metadata := metadata body;
          loc_timestamp := now env |} in
     Location_save env location ;;;
     (* req.device.lastLocation = { type: 'Point', coordinates, timestamp } *)
     let req_device :=
       set_lastLocation req_device
         {| last_coordinates := point; last_timestamp := now env |} in
     Device_save env req_device ;;;
     broadcastLocation (deviceId req_device)
       {| data_coordinates := point;
          data_altitude := altitude body;
          data_speed := speed body;
          data_accuracy := accuracy body;
          data_timestamp := loc_timestamp location |} ;;;
     (* the loop reads req.device, whose lastLocation was just assigned *)
     check_geofences req_device point ;;;
     ret (Created location))
    (λ error, ret (Next error)).

(** The frames handed to connection [c], oldest first. *)
Definition frames (c : Conn) (w : World) : list Frame :=
  match sockets w !! c with
  | Some s => sent s
  | None => []
  end.

(** ** The evaluation the specification describes *)

(** [evaluate(previousPosition, newPosition, geofences)] as the specification
    words it: for each geofence, was-inside from the previous position (false
    when there is none), is-inside from the new position, Enter on
    outside-to-inside, Exit on inside-to-outside, nothing otherwise. *)
Definition spec_inside (p : coords) (g : Geofence) : bool :=
  JsMath.leb (calculateDistance p (center g)) (radius g).

Definition spec_transition (previous : option coords) (new : coords)
    (g : Geofence) : option (EventType * Geofence) :=
  let wasInside :=
    match previous with Some p => spec_inside p g | None => false end in
  let isInside := spec_inside new g in
  if negb wasInside && isInside then Some (enter, g)
  else if wasInside && negb isInside then Some (exit, g)
  else None.

Definition spec_evaluate (previous : option coords) (new : coords)
    (gs : list Geofence) : list (EventType * Geofence) :=
  omap (spec_transition previous new) gs.

(** ** Broadcasts as world updates *)

(** What a broadcast does to the world: the frame goes to the socket
    registered for the device, if there is one and it is open. *)
Definition push (f : Frame) (s : Socket) : Socket :=
  {| readyState := readyState s; sent := sent s ++ [f] |}.

Definition deliver (i : string) (f : Frame) (w : World) : World :=
  match connections w !! i with
  | Some c =>
      match sockets w !! c with
      | Some s =>
          if decide (readyState s = OPEN)
          then set_sockets (alter (push f) c) w else w
      | None => w
      end
  | None => w
  end.

(** A broadcast the ingestion route may make for a device. *)
Inductive Broadcast :=
| Loc (data : LocationData)
| Geo (eventType : EventType) (geofence : Geofence).

Definition broadcast (i : string) (b : Broadcast) : M unit :=
  match b with
  | Loc data => broadcastLocation i data
  | Geo e g => broadcastGeofenceEvent i e g
  end.

Definition frame_of (i : string) (b : Broadcast) : Frame :=
  match b with
  | Loc data => location_update i data
  | Geo e g => geofence_event i e g
  end.

Definition subscribe_frame (i : string) : Message :=
  JsonValue (Some "subscribe") (Some i).

(** The broadcasts of a list of transitions, in order. *)
Definition event_broadcasts (evs : list (EventType * Geofence)) : list Broadcast :=
  map (λ eg, Geo (fst eg) (snd eg)) evs.

(** The position the geofence loop takes for the previous one: the
    coordinates of [req.device.lastLocation] as it is when the loop runs. *)
Definition loop_previous (device : Device) : option coords :=
  last_coordinates <$> lastLocation device.

(** The document the route creates and the payload it broadcasts. *)
Definition new_location (env : Env) (device : Device) (body : Body)
    (point : coords) : Location :=
  {| loc_deviceId := deviceId device;
     loc_coordinates := point;
     loc_altitude := default 0%R (altitude body);
     loc_speed := default 0%R (speed body);
     loc_accuracy := default 0%R (accuracy body);
     loc_metadata := metadata body;
     loc_timestamp := now env |}.

Definition location_data (env : Env) (body : Body) (point : coords)
  : LocationData :=
  {| data_coordinates := point;
     data_altitude := altitude body;
     data_speed := speed body;
     data_accuracy := accuracy body;
     data_timestamp := now env |}.

Definition updated_device (env : Env) (device : Device) (point : coords)
  : Device :=
  set_lastLocation device
    {| last_coordinates := point; last_timestamp := now env |}.

(** The two writes of an accepted fix. *)
Definition persisted (env : Env) (device : Device) (body : Body)
    (point : coords) (w : World) : World :=
  set_devices (<[deviceId device := updated_device env device point]>)
    (set_locations (λ l, l ++ [new_location env device body point]) w).

(** The frame of a transition. *)
Definition event_frame (i : string) (eg : EventType * Geofence) : Frame :=
  geofence_event i (fst eg) (snd eg).


(** A device-id that starts and ends with a visible ASCII character: the
    schema's [trim] leaves such an id as it is, so a query for it looks
    for the id itself. *)
Definition visible (a : Ascii.ascii) : bool :=
  (32 <? Ascii.nat_of_ascii a) && (Ascii.nat_of_ascii a <? 127).

Fixpoint last_visible (i : string) : bool :=
  match i with
  | EmptyString => false
  | String a EmptyString => visible a
  | String _ rest => last_visible rest
  end.

Definition unpadded (i : string) : bool :=
  match i with
  | EmptyString => false
  | String a _ => visible a && last_visible i
  end.

(** ** Sample data *)

(** A 1 km geofence around the origin. *)
Definition depot : Geofence :=
  {| name := "depot"; radius := 1000; center := (0, 0)%R |}.

Definition stored (lon lat : R) : LastLocation :=
  {| last_coordinates := (lon, lat); last_timestamp := 0 |}.



(** A device with one geofence and the given stored position. *)
Definition tracker (last : option LastLocation) : Device :=
  {| deviceId := "tracker-1"; lastLocation := last; geofences := [depot] |}.

(** One open connection, subscribed to the device; empty collections but for
    the device. *)
Definition viewer : Conn := 7.

Definition world0 (d : Device) : World :=
  {| connections := {[ "tracker-1" := viewer ]};
     sockets := {[ viewer := {| readyState := OPEN; sent := [] |} ]};
     locations := [];
     devices := {[ "tracker-1" := d ]} |}.

Definition fix_at (lon lat : R) : Body :=
  {| coordinates := Array [lon; lat]; altitude := None; speed := None;
     accuracy := None; metadata := [] |}.

Definition writes_ok : Env :=
  {| location_save_ok := true; device_save_ok := true; now := 0 |}.

Definition device_write_fails : Env :=
  {| location_save_ok := true; device_save_ok := false; now := 0 |}.

(** The range the specification gives for a fix: longitude in [-180, 180],
    latitude in [-90, 90]. *)
Definition spec_in_range (p : coords) : Prop :=
  (-180 <= fst p <= 180)%R ∧ (-90 <= snd p <= 90)%R.

(** The shape the route checks: an array of exactly two elements. *)
Definition two_elements (c : JsCoordinates) : bool :=
  match c with
  | Array [_; _] => true
  | _ => false
  end.

(** A frame that is not a well-formed subscribe message. *)
Definition malformed (message : Message) : bool :=
  match message with
  | Unparseable | JsonNull => true
  | JsonValue t i =>
      match subscribe_request (t, i) with Some _ => false | None => true end
  end.

(** A frame on which the handler's [try] block throws. *)
Definition throws (message : Message) : bool :=
  match message with
  | Unparseable | JsonNull => true
  | JsonValue _ _ => false
  end.

(** ** Location queries *)

(** The query [{ deviceId, timestamp: { $gte, $lte } }] of
    [getLocationHistory]: a bound is there when the query string gives one
    (an absent or empty [startTime]/[endTime] is falsy), and stands for the
    instant [new Date(...)] makes of it. *)
Definition history_query (i : string) (startTime endTime : option Z)
    (l : Location) : bool :=
  String.eqb (loc_deviceId l) i &&
  match startTime with Some t => (t <=? loc_timestamp l)%Z | None => true end &&
  match endTime with Some t => (loc_timestamp l <=? t)%Z | None => true end.

(** [.sort({ timestamp: -1 })]: newest first; documents with the same
    timestamp come in the order the sort leaves them. *)
Definition newer_first (a b : Location) : Prop :=
  (loc_timestamp b ≤ loc_timestamp a)%Z.

#[global] Instance newer_first_dec (a b : Location) :
  Decision (newer_first a b) := Z_le_dec _ _.

(** A bound of the history request as the query string gives it: absent (or
    empty, which is falsy), a text [new Date(...)] reads as an instant, or a
    text it does not (an invalid date, which the query refuses to cast). *)
Inductive QueryTime :=
| NoTime
| Instant (t : Z)
| InvalidDate.

#[global] Instance QueryTime_eq_dec : EqDecision QueryTime.
Proof. solve_decision. Defined.

Definition cast_bound (q : QueryTime) : M (option Z) :=
  match q with
  | NoTime => ret None
  | Instant t => ret (Some t)
  | InvalidDate => throw CastError
  end.

(** The bound a query time puts on the timestamps, when it casts. *)
Definition instant_of (q : QueryTime) : option Z :=
  match q with
  | Instant t => Some t
  | _ => None
  end.

(** [locationSchema.statics.getLocationHistory] *)
Definition getLocationHistory (i : string) (startTime endTime : QueryTime)
  : M (list Location) :=
  a <- cast_bound startTime ;;
  b <- cast_bound endTime ;;
  gets (λ w, merge_sort newer_first
               (filter (λ l, history_query i a b l) (locations w))).

(** The documents the history query selects for bounds that cast. *)
Definition selected (i : string) (startTime endTime : QueryTime) (w : World)
  : list Location :=
  merge_sort newer_first
    (filter (λ l, history_query i (instant_of startTime) (instant_of endTime) l)
       (locations w)).

(** [locationSchema.statics.getLatestLocation] *)
Definition getLatestLocation (i : string) : M (option Location) :=
  gets (λ w, head (merge_sort newer_first
                     (filter (λ l, String.eqb (loc_deviceId l) i)
                        (locations w)))).

Inductive HistoryResponse :=
| HistoryOk (results : nat) (found : list Location)  (* res.status(200) *)
| HistoryNext (error : Error).

(** [router.get('/:deviceId/history', authenticateAdmin, ...)], after
    [authenticateAdmin]. *)
Definition get_history (i : string) (startTime endTime : QueryTime)
  : M HistoryResponse :=
  try_catch
    (found <- getLocationHistory i startTime endTime ;;
     ret (HistoryOk (length found) found))
    (λ error, ret (HistoryNext error)).

Inductive LatestResponse :=
| LatestOk (location : Location)                     (* res.status(200) *)
| LatestNext (error : Error).

(** [router.get('/:deviceId/latest', authenticateAdmin, ...)], after
    [authenticateAdmin]. *)
Definition get_latest (i : string) : M LatestResponse :=
  try_catch
    (location <- getLatestLocation i ;;
     match location with
     | None => throw (ApiError 404 "No location data found for this device")
     | Some l => ret (LatestOk l)
     end)
    (λ error, ret (LatestNext error)).

(** A timestamp within the bounds of a history query. *)
Definition within (startTime endTime : option Z) (t : Z) : Prop :=
  (∀ a, startTime = Some a → (a ≤ t)%Z) ∧ (∀ b, endTime = Some b → (t ≤ b)%Z).

(** A world that holds one older location document of the sample device. *)
Definition old_fix : Location :=
  {| loc_deviceId := "tracker-1"; loc_coordinates := (0, 0)%R;
     loc_altitude := 0; loc_speed := 0; loc_accuracy := 0;
     loc_metadata := []; loc_timestamp := -5 |}.

Definition world1 (d : Device) : World :=
  set_locations (λ _, [old_fix]) (world0 d).

(** A second device, and a world that holds both. *)
Definition second : Device :=
  {| deviceId := "tracker-2"; lastLocation := None; geofences := [] |}.

Definition world2 : World :=
  set_devices (<[ "tracker-2" := second ]>) (world0 (tracker None)).

(** ** Adding a geofence *)

(** The body of the geofence request: [name], [radius], and [center] with
    its coordinates, or no [center] at all (reading [center.coordinates]
    then throws). *)
Record GeofenceBody := {
  new_name : string;
  new_radius : R;
  new_center : option coords
}.

Inductive GeofenceResponse :=
| GeofenceOk (device : Device)                       (* res.status(200) *)
| GeofenceNext (error : Error).

(** [router.post('/:deviceId/geofences', authenticateAdmin, ...)] of the
    devices router, after [authenticateAdmin]. *)
Definition post_geofence (env : Env) (i : string) (body : GeofenceBody)
  : M GeofenceResponse :=
  try_catch
    (device <- Device_findOne i ;;
     match device with
     | None => throw (ApiError 404 "Device not found")
     | Some device =>
         point <- match new_center body with
                  | Some c => ret c
                  | None => throw TypeError
                  end ;;
         (* device.geofences.push({ name, radius, center }) *)
         let device :=
           {| deviceId := deviceId device;
              lastLocation := lastLocation device;
              geofences := geofences device ++
                [{| name := new_name body; radius := new_radius body;
                    center := point |}] |} in
         Device_save env device ;;;
         ret (GeofenceOk device)
     end)
    (λ error, ret (GeofenceNext error)).

(** The geofence of a request body with a center, and the device document
    with it pushed. *)
Definition new_geofence (body : GeofenceBody) (point : coords) : Geofence :=
  {| name := new_name body; radius := new_radius body; center := point |}.

Definition with_geofence (device : Device) (g : Geofence) : Device :=
  {| deviceId := deviceId device; lastLocation := lastLocation device;
     geofences := geofences device ++ [g] |}.

(** A request body for a 500 m geofence at (1, 1). *)
Definition yard : GeofenceBody :=
  {| new_name := "yard"; new_radius := 500; new_center := Some (1, 1)%R |}.

(** The haversine term [a] of [calculateDistance]. *)
Definition haversine (point1 point2 : coords) : R :=
  let '(lon1, lat1) := point1 in
  let '(lon2, lat2) := point2 in
  (sin ((lat2 - lat1) * PI / 180 / 2) * sin ((lat2 - lat1) * PI / 180 / 2) +
   cos (lat1 * PI / 180) * cos (lat2 * PI / 180) *
   sin ((lon2 - lon1) * PI / 180 / 2) * sin ((lon2 - lon1) * PI / 180 / 2))%R.

(** * Properties *)

(** ** The distance function *)

Section DistanceFacts.
Local Open Scope R_scope.

Lemma atan2_0_1 : JsMath.atan2 0 1 = 0.
Proof.
  unfold JsMath.atan2.
  destruct (Rlt_dec 0 1) as [_|H]; [|exfalso; apply H; lra].
  replace (0 / 1) with 0 by lra. apply atan_0.
Qed.




Lemma calculateDistance_refl (A : coords) : calculateDistance A A = 0.
Proof.
  destruct A as [lon lat]. unfold calculateDistance.
  replace ((lat - lat) * PI / 180 / 2) with 0 by field.
  replace ((lon - lon) * PI / 180 / 2) with 0 by field.
  rewrite sin_0.
  replace (0 * 0 + cos (lat * PI / 180) * cos (lat * PI / 180) * 0 * 0)
    with 0 by ring.
  rewrite Rminus_0_r, sqrt_0, sqrt_1, atan2_0_1. ring.
Qed.

Lemma leb_true (x y : R) : x <= y → JsMath.leb x y = true.
Proof. intros H. unfold JsMath.leb. by destruct (Rle_dec x y). Qed.

Lemma leb_false (x y : R) : y < x → JsMath.leb x y = false.
Proof. intros H. unfold JsMath.leb. destruct (Rle_dec x y); [lra | done]. Qed.

Lemma sin_sq_PI4 : sin (PI / 4) * sin (PI / 4) = 1 / 2.
Proof.
  rewrite sin_PI4.
  assert (H2 : sqrt 2 * sqrt 2 = 2) by (apply sqrt_sqrt; lra).
  assert (Hs : sqrt 2 <> 0) by (intros E; rewrite E in H2; lra).
  field_simplify_eq; [lra | done].
Qed.

Lemma atan2_diag (s : R) : 0 < s → JsMath.atan2 s s = PI / 4.
Proof.
  intros Hs. unfold JsMath.atan2.
  destruct (Rlt_dec 0 s); [|done].
  replace (s / s) with 1 by (field; lra). apply atan_1.
Qed.

(** From the equator to the pole along a meridian: a quarter of the
    circumference. *)
Lemma quarter_meridian :
  calculateDistance (0, 90) (0, 0) = 6371000 * (PI / 2).
Proof.
  unfold calculateDistance.
  replace ((0 - 90) * PI / 180 / 2) with (- (PI / 4)) by field.
  replace ((0 - 0) * PI / 180 / 2) with 0 by field.
  rewrite sin_neg, sin_0.
  replace (- sin (PI / 4) * - sin (PI / 4)) with (sin (PI / 4) * sin (PI / 4))
    by ring.
  rewrite sin_sq_PI4.
  replace (1 / 2 + cos (90 * PI / 180) * cos (0 * PI / 180) * 0 * 0)
    with (1 / 2) by ring.
  replace (1 - 1 / 2) with (1 / 2) by field.
  rewrite atan2_diag; [field|].
  apply sqrt_lt_R0. lra.
Qed.

Lemma quarter_meridian_far : 1000 < calculateDistance (0, 90) (0, 0).
Proof. rewrite quarter_meridian. pose proof PI2_1. lra. Qed.

End DistanceFacts.

(** ** The subscription registry *)

Section Registry.
Implicit Types (w : World) (c ws : Conn) (i : string) (f : Frame).

(** The close loop deletes exactly the keys it meets with handle [ws]. *)
Lemma foldl_close_step_lookup ws (l : list (string * Conn))
    (m : gmap string Conn) i :
  foldl (close_step ws) m l !! i =
    if decide ((i, ws) ∈ l) then None else m !! i.
Proof.
  revert m. induction l as [|[k v] l IH]; intros m; cbn [foldl].
  - rewrite decide_False; [done | apply not_elem_of_nil].
  - rewrite IH. unfold close_step; cbn [fst snd].
    destruct (decide (v = ws)) as [->|Hv].
    + destruct (decide (i = k)) as [->|Hik].
      * rewrite lookup_delete_eq, (decide_True (P := _ ∈ _ :: _));
          [by case_decide | apply elem_of_cons; by left].
      * rewrite lookup_delete_ne by done. apply decide_ext.
        rewrite elem_of_cons. split; [by right | intros [?|?]; congruence].
    + apply decide_ext.
      rewrite elem_of_cons. split; [by right | intros [?|?]; congruence].
Qed.

Lemma on_close_lookup ws w i :
  connections (exec (on_close ws) w) !! i =
    if decide (connections w !! i = Some ws) then None
    else connections w !! i.
Proof.
  unfold exec, on_close, modify; simpl.
  rewrite foldl_close_step_lookup.
  repeat case_decide; try done.
  - exfalso. by apply elem_of_map_to_list in H.
  - exfalso. by apply elem_of_map_to_list in H0.
Qed.

Lemma on_close_rest ws w :
  sockets (exec (on_close ws) w) = sockets w ∧
  locations (exec (on_close ws) w) = locations w ∧
  devices (exec (on_close ws) w) = devices w.
Proof. done. Qed.

Lemma World_eq w1 w2 :
  connections w1 = connections w2 → sockets w1 = sockets w2 →
  locations w1 = locations w2 → devices w1 = devices w2 → w1 = w2.
Proof. destruct w1, w2; simpl; congruence. Qed.

Lemma broadcastLocation_deliver i data w :
  broadcastLocation i data w = (Ok tt, deliver i (location_update i data) w).
Proof.
  unfold broadcastLocation, deliver, bind, gets, ret, ws_send, modify; simpl.
  destruct (connections w !! i) as [c|]; [|done].
  destruct (sockets w !! c) as [s|]; [|done].
  by case_decide.
Qed.

Lemma broadcastGeofenceEvent_deliver i e g w :
  broadcastGeofenceEvent i e g w =
    (Ok tt, deliver i (geofence_event i e g) w).
Proof.
  unfold broadcastGeofenceEvent, deliver, bind, gets, ret, ws_send, modify;
    simpl.
  destruct (connections w !! i) as [c|]; [|done].
  destruct (sockets w !! c) as [s|]; [|done].
  by case_decide.
Qed.

Lemma deliver_connections i f w :
  connections (deliver i f w) = connections w.
Proof. unfold deliver. repeat case_match; done. Qed.

Lemma deliver_unsubscribed i f w :
  connections w !! i = None → deliver i f w = w.
Proof. unfold deliver. by intros ->. Qed.

Lemma deliver_frames_other i f w c :
  connections w !! i ≠ Some c → frames c (deliver i f w) = frames c w.
Proof.
  intros Hc. unfold deliver.
  destruct (connections w !! i) as [c'|] eqn:Hi; [|done].
  destruct (sockets w !! c') as [s|] eqn:Hs; [|done].
  case_decide; [|done].
  unfold frames; simpl. rewrite lookup_alter_ne; [done | congruence].
Qed.

Lemma deliver_open i f w c s :
  connections w !! i = Some c → sockets w !! c = Some s →
  readyState s = OPEN →
  sockets (deliver i f w) !! c = Some (push f s).
Proof.
  intros Hi Hs Ho. unfold deliver. rewrite Hi, Hs.
  rewrite decide_True by done. simpl.
  by rewrite lookup_alter_eq, Hs.
Qed.

End Registry.

Section Broadcasts.
Implicit Types (w : World) (c : Conn) (i : string) (b : Broadcast).

Lemma broadcast_deliver i b w :
  broadcast i b w = (Ok tt, deliver i (frame_of i b) w).
Proof.
  destruct b; [apply broadcastLocation_deliver
              | apply broadcastGeofenceEvent_deliver].
Qed.

Lemma for_of_broadcast_ok i (bs : list Broadcast) w :
  fst (for_of bs (broadcast i) w) = Ok tt ∧
  connections (exec (for_of bs (broadcast i)) w) = connections w.
Proof.
  revert w. induction bs as [|b bs IH]; intros w; [done|].
  unfold exec in *. cbn [for_of]. unfold bind.
  rewrite broadcast_deliver. cbv beta iota.
  destruct (IH (deliver i (frame_of i b) w)) as [-> ->].
  by rewrite deliver_connections.
Qed.

Lemma for_of_broadcast_unsubscribed i (bs : list Broadcast) w :
  connections w !! i = None → for_of bs (broadcast i) w = (Ok tt, w).
Proof.
  intros Hi. induction bs as [|b bs IH]; [done|].
  cbn [for_of]. unfold bind.
  rewrite broadcast_deliver. cbv beta iota.
  by rewrite deliver_unsubscribed.
Qed.

Lemma for_of_broadcast_other i (bs : list Broadcast) w c :
  connections w !! i ≠ Some c →
  frames c (exec (for_of bs (broadcast i)) w) = frames c w.
Proof.
  revert w. induction bs as [|b bs IH]; intros w Hc; [done|].
  unfold exec in *. cbn [for_of]. unfold bind.
  rewrite broadcast_deliver. cbv beta iota.
  rewrite IH by (by rewrite deliver_connections).
  by apply deliver_frames_other.
Qed.

Lemma for_of_broadcast_open i (bs : list Broadcast) w c s :
  connections w !! i = Some c → sockets w !! c = Some s →
  readyState s = OPEN →
  frames c (exec (for_of bs (broadcast i)) w) =
    sent s ++ map (frame_of i) bs.
Proof.
  revert w s. induction bs as [|b bs IH]; intros w s Hi Hs Ho.
  - unfold exec, frames; simpl. by rewrite Hs, app_nil_r.
  - unfold exec in *. cbn [for_of]. unfold bind.
    rewrite broadcast_deliver. cbv beta iota.
    rewrite (IH _ (push (frame_of i b) s)).
    + simpl. by rewrite <- app_assoc.
    + by rewrite deliver_connections.
    + by apply deliver_open.
    + done.
Qed.

Lemma subscribe_known i c d w :
  i ≠ "" → devices w !! i = Some d →
  on_message c (subscribe_frame i) w =
    (Ok tt, set_sockets (alter (push (subscribed i)) c)
              (set_connections (<[i := c]>) w)).
Proof.
  intros Hi Hd.
  unfold on_message, subscribe_frame, try_catch, bind; simpl.
  destruct (String.eqb i "") eqn:E; [by apply String.eqb_eq in E|].
  unfold Device_findOne, gets; simpl. by rewrite Hd.
Qed.

Lemma frame_of_event_broadcasts i (evs : list (EventType * Geofence)) :
  map (frame_of i) (event_broadcasts evs) = map (event_frame i) evs.
Proof. unfold event_broadcasts. rewrite map_map. done. Qed.

End Broadcasts.

(** ** The geofence loop *)

Section GeofenceLoop.
Implicit Types (w : World) (d : Device) (p : coords) (g : Geofence).

(** One pass of the loop body decides as the specified transition does, taking
    [req.device.lastLocation] for the previous position. *)
Lemma check_geofence_transition d p g w :
  check_geofence d p g w =
    match spec_transition (loop_previous d) p g with
    | Some (e, g') => broadcast (deviceId d) (Geo e g') w
    | None => (Ok tt, w)
    end.
Proof.
  unfold check_geofence, spec_transition, loop_previous, spec_inside.
  destruct (lastLocation d) as [l|]; simpl.
  - destruct (JsMath.leb (calculateDistance (last_coordinates l) (center g))
                (radius g)),
             (JsMath.leb (calculateDistance p (center g)) (radius g)); done.
  - destruct (JsMath.leb (calculateDistance p (center g)) (radius g)); done.
Qed.

Lemma for_of_check_geofence d p (gs : list Geofence) w :
  for_of gs (check_geofence d p) w =
    for_of (event_broadcasts (spec_evaluate (loop_previous d) p gs))
      (broadcast (deviceId d)) w.
Proof.
  revert w. induction gs as [|g gs IH]; intros w; [done|].
  cbn [for_of]. unfold bind at 1. rewrite check_geofence_transition.
  unfold spec_evaluate in *. cbn [omap list_omap].
  destruct (spec_transition (loop_previous d) p g) as [[e g']|].
  - cbn [event_broadcasts map for_of fst snd]. unfold bind.
    destruct (broadcast (deviceId d) (Geo e g') w) as [[[]|err] w1]; [|done].
    apply IH.
  - apply IH.
Qed.

Lemma check_geofences_broadcasts d p w :
  check_geofences d p w =
    for_of (event_broadcasts (spec_evaluate (loop_previous d) p (geofences d)))
      (broadcast (deviceId d)) w.
Proof.
  unfold check_geofences. rewrite <- for_of_check_geofence.
  by destruct (geofences d).
Qed.

(** With the previous position equal to the new one no geofence changes
    state. *)
Lemma spec_transition_same p g : spec_transition (Some p) p g = None.
Proof. unfold spec_transition. by destruct (spec_inside p g). Qed.

Lemma spec_evaluate_same p (gs : list Geofence) :
  spec_evaluate (Some p) p gs = [].
Proof.
  unfold spec_evaluate. induction gs as [|g gs IH]; [done|].
  cbn [omap list_omap]. by rewrite spec_transition_same.
Qed.


End GeofenceLoop.

(** ** The ingestion route *)

Section Route.
Implicit Types (w : World) (d : Device) (env : Env) (body : Body).

(** An accepted fix: both writes, then the location update, then the
    transitions the loop finds. *)
Lemma post_location_accepted env d body lon lat w :
  coordinates body = Array [lon; lat] →
  location_save_ok env = true → device_save_ok env = true →
  post_location env d body w =
    (Ok (Created (new_location env d body (lon, lat))),
     exec (for_of
             (Loc (location_data env body (lon, lat)) ::
              event_broadcasts
                (spec_evaluate (loop_previous (updated_device env d (lon, lat)))
                   (lon, lat) (geofences d)))
             (broadcast (deviceId d)))
          (persisted env d body (lon, lat) w)).
Proof.
  intros Hc Hl Hd.
  unfold post_location, try_catch, exec.
  unfold bind at 1. rewrite Hc. cbn [validate ret].
  unfold bind at 1. unfold Location_save. rewrite Hl. cbn [modify].
  unfold bind at 1. unfold Device_save. rewrite Hd. cbn [modify].
  fold (updated_device env d (lon, lat)).
  fold (new_location env d body (lon, lat)).
  change (set_devices _ (set_locations _ w))
    with (persisted env d body (lon, lat) w).
  set (w1 := persisted env d body (lon, lat) w).
  set (d1 := updated_device env d (lon, lat)).
  change (deviceId d1) with (deviceId d).
  change {| data_coordinates := (lon, lat); data_altitude := altitude body;
            data_speed := speed body; data_accuracy := accuracy body;
            data_timestamp := loc_timestamp (new_location env d body (lon, lat)) |}
    with (location_data env body (lon, lat)).
  cbn [for_of]. unfold bind.
  rewrite (broadcast_deliver _ (Loc _)). cbn [broadcast frame_of].
  rewrite broadcastLocation_deliver. cbv beta iota.
  rewrite check_geofences_broadcasts.
  change (deviceId d1) with (deviceId d). change (geofences d1) with (geofences d).
  destruct (for_of_broadcast_ok (deviceId d)
    (event_broadcasts (spec_evaluate (loop_previous d1) (lon, lat) (geofences d)))
    (deliver (deviceId d) (location_update (deviceId d)
       (location_data env body (lon, lat))) w1)) as [Hok _].
  destruct (for_of _ _ _) as [[[]|e] w2]; simpl in *; [done | discriminate].
Qed.

End Route.

Section MessageHandler.
Implicit Types (w : World) (ws : Conn) (message : Message).

Lemma on_message_throws ws message w :
  throws message = true →
  on_message ws message w =
    (Ok tt, set_sockets
              (alter (push (error_frame "Invalid message format")) ws) w).
Proof. by destruct message. Qed.

Lemma on_message_ignored ws message w :
  malformed message = true → throws message = false →
  on_message ws message w = (Ok tt, w).
Proof.
  destruct message as [| |t i]; try done. intros Hm _.
  unfold on_message, try_catch, bind. cbn [JSON_parse properties ret].
  unfold malformed in Hm. by destruct (subscribe_request (t, i)).
Qed.

End MessageHandler.

Section RouteOutcomes.
Implicit Types (w : World) (d : Device) (env : Env) (body : Body).

Lemma post_location_invalid env d body w :
  two_elements (coordinates body) = false →
  post_location env d body w =
    (Ok (Next (ApiError 400 "Valid coordinates are required")), w).
Proof.
  intros H. unfold post_location, try_catch. unfold bind at 1.
  destruct (coordinates body) as [|[|lon [|lat [|x l]]]]; done.
Qed.

Lemma post_location_location_write_fails env d body lon lat w :
  coordinates body = Array [lon; lat] → location_save_ok env = false →
  post_location env d body w = (Ok (Next DbError), w).
Proof.
  intros Hc Hl. unfold post_location, try_catch.
  unfold bind at 1. rewrite Hc. cbn [validate ret].
  unfold bind at 1. unfold Location_save. by rewrite Hl.
Qed.

Lemma post_location_device_write_fails env d body lon lat w :
  coordinates body = Array [lon; lat] →
  location_save_ok env = true → device_save_ok env = false →
  post_location env d body w =
    (Ok (Next DbError),
     set_locations (λ l, l ++ [new_location env d body (lon, lat)]) w).
Proof.
  intros Hc Hl Hd. unfold post_location, try_catch.
  unfold bind at 1. rewrite Hc. cbn [validate ret].
  unfold bind at 1. unfold Location_save. rewrite Hl. cbn [modify].
  unfold bind at 1. unfold Device_save. by rewrite Hd.
Qed.

Lemma two_elements_inv (c : JsCoordinates) :
  two_elements c = true → ∃ lon lat, c = Array [lon; lat].
Proof. destruct c as [|[|lon [|lat [|x l]]]]; try done. by exists lon, lat. Qed.

(** What a subscribed, open connection is handed for an accepted fix: the
    location update, and nothing for the geofences, since the loop compares
    the new position with itself. *)
Lemma post_location_frames env d body lon lat c s w :
  coordinates body = Array [lon; lat] →
  location_save_ok env = true → device_save_ok env = true →
  connections w !! deviceId d = Some c → sockets w !! c = Some s →
  readyState s = OPEN →
  frames c (exec (post_location env d body) w) =
    sent s ++ [location_update (deviceId d) (location_data env body (lon, lat))].
Proof.
  intros Hc Hl Hd Hi Hs Ho. unfold exec at 1.
  rewrite (post_location_accepted env d body lon lat) by done.
  cbn [snd]. unfold loop_previous, updated_device. cbn [set_lastLocation
    lastLocation last_coordinates fmap option_fmap option_map].
  rewrite spec_evaluate_same. cbn [event_broadcasts map].
  by rewrite (for_of_broadcast_open _ _ _ c s).
Qed.

End RouteOutcomes.

Section IngestFacts.
Implicit Types (w : World) (d : Device) (env : Env) (body : Body).

(** The world after an accepted fix: the two writes, then one delivery. *)
Lemma post_location_accepted_world env d body lon lat w :
  coordinates body = Array [lon; lat] →
  location_save_ok env = true → device_save_ok env = true →
  exec (post_location env d body) w =
    deliver (deviceId d)
      (location_update (deviceId d) (location_data env body (lon, lat)))
      (persisted env d body (lon, lat) w).
Proof.
  intros Hc Hl Hd. unfold exec at 1.
  rewrite (post_location_accepted env d body lon lat) by done.
  cbn [snd]. unfold loop_previous, updated_device. cbn [set_lastLocation
    lastLocation last_coordinates fmap option_fmap option_map].
  rewrite spec_evaluate_same. cbn [event_broadcasts map].
  unfold exec. cbn [for_of]. unfold bind.
  by rewrite broadcast_deliver.
Qed.

Lemma post_location_outcomes env d body w :
  exec (post_location env d body) w = w ∨
  (∃ lon lat, coordinates body = Array [lon; lat] ∧
     exec (post_location env d body) w =
       set_locations (λ l, l ++ [new_location env d body (lon, lat)]) w) ∨
  (∃ lon lat, coordinates body = Array [lon; lat] ∧
     exec (post_location env d body) w =
       deliver (deviceId d)
         (location_update (deviceId d) (location_data env body (lon, lat)))
         (persisted env d body (lon, lat) w)).
Proof.
  destruct (two_elements (coordinates body)) eqn:E.
  - destruct (two_elements_inv _ E) as (lon & lat & Hc).
    destruct (location_save_ok env) eqn:Hl.
    + destruct (device_save_ok env) eqn:Hd.
      * right; right. exists lon, lat. split; [done|].
        by apply post_location_accepted_world.
      * right; left. exists lon, lat. split; [done|]. unfold exec.
        by rewrite (post_location_device_write_fails env d body lon lat).
    + left. unfold exec.
      by rewrite (post_location_location_write_fails env d body lon lat).
  - left. unfold exec. by rewrite post_location_invalid.
Qed.

End IngestFacts.

Section UpdateThenLoop.
Implicit Types (w : World) (d : Device) (env : Env) (body : Body)
  (p : coords) (c : Conn).





End UpdateThenLoop.

(** * The claims *)

(** C1, at a fix the code gets wrong: the device's stored position (0, 0)
    is inside the geofence and the new fix (0, 90) is outside, so the
    evaluation specified yields exactly one Exit; the route hands the
    subscriber the location update and no geofence event. *)
Theorem C1_exit_not_emitted :
  spec_evaluate (Some (0, 0)%R) (0, 90)%R (geofences (tracker (Some (stored 0 0))))
    = [(exit, depot)] ∧
  frames viewer
    (exec (post_location writes_ok (tracker (Some (stored 0 0))) (fix_at 0 90))
       (world0 (tracker (Some (stored 0 0)))))
    = [location_update "tracker-1"
         (location_data writes_ok (fix_at 0 90) (0, 90)%R)].
Proof.
  split.
  - unfold spec_evaluate. cbn [tracker geofences omap list_omap].
    unfold spec_transition, spec_inside. cbn [depot center radius].
    rewrite calculateDistance_refl.
    rewrite (leb_true 0 1000) by lra.
    rewrite (leb_false _ 1000) by apply quarter_meridian_far.
    reflexivity.
  - by rewrite (post_location_frames _ _ _ 0 90 viewer
                  {| readyState := OPEN; sent := [] |}).
Qed.

(** C2, at a fix the code gets wrong: the device has no stored position and
    its first fix (0, 0) lies inside the geofence, so the evaluation specified
    yields exactly one Enter; the route hands the subscriber the location
    update and no geofence event. *)
Theorem C2_first_fix_enter_not_emitted :
  spec_evaluate None (0, 0)%R (geofences (tracker None)) = [(enter, depot)] ∧
  frames viewer
    (exec (post_location writes_ok (tracker None) (fix_at 0 0))
       (world0 (tracker None)))
    = [location_update "tracker-1"
         (location_data writes_ok (fix_at 0 0) (0, 0)%R)].
Proof.
  split.
  - unfold spec_evaluate. cbn [tracker geofences omap list_omap].
    unfold spec_transition, spec_inside. cbn [depot center radius].
    rewrite calculateDistance_refl.
    rewrite (leb_true 0 1000) by lra.
    reflexivity.
  - by rewrite (post_location_frames _ _ _ 0 0 viewer
                  {| readyState := OPEN; sent := [] |}).
Qed.

(** C3, as the route has it: the fix is rejected with the 400 error, and
    nothing is stored or sent, exactly when its coordinates are not an array
    of exactly two elements.  No range is checked: a two-element array goes
    on to the two writes.  If the location write fails the write's error is
    the answer and nothing is changed; if the device write fails the write's
    error is the answer and the location document stays stored; if both
    succeed the answer is 201, the location document and the device's last
    location are stored, and the location update is handed to the device's
    subscriber. *)
Theorem C3_validation_checks_shape_only (env : Env) (d : Device) (body : Body)
    (w : World) :
  (two_elements (coordinates body) = false ∧
   post_location env d body w =
     (Ok (Next (ApiError 400 "Valid coordinates are required")), w))
  ∨
  (∃ lon lat, coordinates body = Array [lon; lat] ∧
     post_location env d body w =
       if location_save_ok env then
         if device_save_ok env then
           (Ok (Created (new_location env d body (lon, lat))),
            deliver (deviceId d)
              (location_update (deviceId d)
                 (location_data env body (lon, lat)))
              (persisted env d body (lon, lat) w))
         else
           (Ok (Next DbError),
            set_locations (λ l, l ++ [new_location env d body (lon, lat)]) w)
       else (Ok (Next DbError), w)).
Proof.
  destruct (two_elements (coordinates body)) eqn:E.
  - right. destruct (two_elements_inv _ E) as (lon & lat & Hc).
    exists lon, lat. split; [done|].
    destruct (location_save_ok env) eqn:Hl.
    + destruct (device_save_ok env) eqn:Hd.
      * pose proof (post_location_accepted env d body lon lat w Hc Hl Hd) as E1.
        pose proof (post_location_accepted_world env d body lon lat w Hc Hl Hd)
          as E2.
        unfold exec in E2. rewrite E1 in E2 |- *. cbn [snd] in E2.
        by rewrite E2.
      * by apply (post_location_device_write_fails env d body lon lat).
    + by apply (post_location_location_write_fails env d body lon lat).
  - left. split; [done|]. by apply post_location_invalid.
Qed.

(** C3 as stated fails: the fix (200, 100) is outside the range of the
    specification and is a two-element array, so the route hands it to the
    writes.  Whatever the writes do, the answer is never the validation
    error: when the store refuses the location document the answer is the
    write's error; when both writes succeed the answer is 201 and the fix is
    stored and broadcast. *)
Lemma C3_out_of_range_fix_accepted :
  ¬ spec_in_range (200, 100)%R ∧
  (∀ env,
     fst (post_location env (tracker None) (fix_at 200 100)
            (world0 (tracker None)))
     ≠ Ok (Next (ApiError 400 "Valid coordinates are required"))) ∧
  (∀ env, location_save_ok env = false →
     post_location env (tracker None) (fix_at 200 100) (world0 (tracker None))
     = (Ok (Next DbError), world0 (tracker None))) ∧
  (∀ env, location_save_ok env = true → device_save_ok env = true →
     fst (post_location env (tracker None) (fix_at 200 100)
            (world0 (tracker None)))
       = Ok (Created (new_location env (tracker None) (fix_at 200 100)
                        (200, 100)%R)) ∧
     locations (exec (post_location env (tracker None) (fix_at 200 100))
                  (world0 (tracker None)))
       = [new_location env (tracker None) (fix_at 200 100) (200, 100)%R] ∧
     frames viewer (exec (post_location env (tracker None) (fix_at 200 100))
                      (world0 (tracker None)))
       = [location_update "tracker-1"
            (location_data env (fix_at 200 100) (200, 100)%R)]).
Proof.
  split; [|split; [|split]].
  - unfold spec_in_range; simpl. lra.
  - intros env.
    destruct (location_save_ok env) eqn:Hl; [destruct (device_save_ok env) eqn:Hd|].
    + by rewrite (post_location_accepted _ _ _ 200 100).
    + by rewrite (post_location_device_write_fails _ _ _ 200 100).
    + by rewrite (post_location_location_write_fails _ _ _ 200 100).
  - intros env Hl. by apply (post_location_location_write_fails _ _ _ 200 100).
  - intros env Hl Hd. split; [|split].
    + by rewrite (post_location_accepted _ _ _ 200 100).
    + rewrite (post_location_accepted_world _ _ _ 200 100) by done.
      unfold deliver. by repeat case_match.
    + by rewrite (post_location_frames _ _ _ 200 100 viewer
                    {| readyState := OPEN; sent := [] |}).
Qed.

(** C4, as the handler has it: for an inbound frame that does not parse,
    parses to [null], or fails the handler's test
    [data.type === 'subscribe' && data.deviceId], the registry is unchanged,
    every socket keeps its [readyState] and no other socket is sent anything;
    the connection is sent the error frame when handling the frame throws
    (it does not parse, or parses to [null]), and is sent nothing when the
    frame parses but fails the test.  A frame that passes the test is
    handled as a subscribe request, whatever else it holds, and is not
    spoken of here. *)
Theorem C4_malformed_frame (ws : Conn) (message : Message) (s : Socket)
    (w : World) :
  malformed message = true → sockets w !! ws = Some s →
  fst (on_message ws message w) = Ok tt ∧
  connections (exec (on_message ws message) w) = connections w ∧
  (∀ c, readyState <$> sockets (exec (on_message ws message) w) !! c
        = readyState <$> sockets w !! c) ∧
  (∀ c, c ≠ ws → frames c (exec (on_message ws message) w) = frames c w) ∧
  frames ws (exec (on_message ws message) w) =
    sent s ++ (if throws message
               then [error_frame "Invalid message format"] else []).
Proof.
  intros Hm Hs. unfold exec.
  destruct (throws message) eqn:Ht.
  - rewrite on_message_throws by done. simpl.
    split; [done|]. split; [done|]. split; [|split].
    + intros c. destruct (decide (c = ws)) as [->|Hc].
      * by rewrite lookup_alter_eq, Hs.
      * by rewrite lookup_alter_ne.
    + intros c Hc. unfold frames; simpl. by rewrite lookup_alter_ne.
    + unfold frames; simpl. by rewrite lookup_alter_eq, Hs.
  - rewrite on_message_ignored by done. simpl.
    split; [done|]. split; [done|]. split; [done|]. split; [done|].
    unfold frames. by rewrite Hs, app_nil_r.
Qed.

Lemma C4_witness :
  (malformed Unparseable = true ∧
   sockets (world0 (tracker None)) !! viewer
     = Some {| readyState := OPEN; sent := [] |}) ∧
  frames viewer (exec (on_message viewer Unparseable) (world0 (tracker None)))
    = [error_frame "Invalid message format"].
Proof.
  assert (H1 : malformed Unparseable = true) by reflexivity.
  assert (H2 : sockets (world0 (tracker None)) !! viewer
               = Some {| readyState := OPEN; sent := [] |}) by reflexivity.
  split; [done|].
  exact (proj2 (proj2 (proj2 (proj2
    (C4_malformed_frame viewer Unparseable _ (world0 (tracker None)) H1 H2))))).
Defined.

(** C4 as stated fails: a frame that parses but is not a subscribe request
    (here its type is "unsubscribe") is schema-violating, and the handler
    sends nothing in reply. *)
Lemma C4_no_error_frame_for_unknown_type :
  malformed (JsonValue (Some "unsubscribe") (Some "tracker-1")) = true ∧
  on_message viewer (JsonValue (Some "unsubscribe") (Some "tracker-1"))
    (world0 (tracker None)) = (Ok tt, world0 (tracker None)) ∧
  frames viewer
    (exec (on_message viewer (JsonValue (Some "unsubscribe") (Some "tracker-1")))
       (world0 (tracker None))) = [].
Proof.
  split; [reflexivity|].
  assert (E : on_message viewer
                (JsonValue (Some "unsubscribe") (Some "tracker-1"))
                (world0 (tracker None)) = (Ok tt, world0 (tracker None)))
    by (by apply on_message_ignored).
  split; [exact E|]. unfold exec. rewrite E. reflexivity.
Qed.



(** C6: after [subscribe] for a device-id from connection [c1] and then from
    a different connection [c2] (the device exists), the second request is
    answered with [subscribed], not with an error, the registry maps the
    device-id to [c2], and every later sequence of broadcasts for that
    device-id hands [c1] nothing and hands [c2], when it is open, exactly
    the broadcast frames in order. *)
Theorem C6_resubscribe_overwrites (i : string) (c1 c2 : Conn) (d : Device)
    (w : World) :
  i ≠ "" → devices w !! i = Some d → c1 ≠ c2 →
  let w1 := exec (on_message c1 (subscribe_frame i)) w in
  let w2 := exec (on_message c2 (subscribe_frame i)) w1 in
  fst (on_message c2 (subscribe_frame i) w1) = Ok tt ∧
  connections w2 !! i = Some c2 ∧
  (∀ s, sockets w1 !! c2 = Some s → frames c2 w2 = sent s ++ [subscribed i]) ∧
  ∀ bs : list Broadcast,
    let w3 := exec (for_of bs (broadcast i)) w2 in
    fst (for_of bs (broadcast i) w2) = Ok tt ∧
    connections w3 !! i = Some c2 ∧
    frames c1 w3 = frames c1 w2 ∧
    (∀ s, sockets w2 !! c2 = Some s → readyState s = OPEN →
          frames c2 w3 = sent s ++ map (frame_of i) bs).
Proof.
  intros Hi Hd Hc w1 w2.
  assert (Hd1 : devices w1 !! i = Some d).
  { subst w1. unfold exec. by rewrite (subscribe_known i c1 d w). }
  assert (E2 : on_message c2 (subscribe_frame i) w1 =
    (Ok tt, set_sockets (alter (push (subscribed i)) c2)
              (set_connections (<[i := c2]>) w1)))
    by (by apply (subscribe_known i c2 d)).
  assert (Hreg : connections w2 !! i = Some c2).
  { subst w2. unfold exec. rewrite E2. simpl. apply lookup_insert_eq. }
  split; [by rewrite E2|]. split; [done|]. split.
  - intros s Hs. subst w2. unfold exec, frames. rewrite E2. simpl.
    by rewrite lookup_alter_eq, Hs.
  - intros bs w3. destruct (for_of_broadcast_ok i bs w2) as [Hok Hconn].
    split; [done|]. split; [subst w3; by rewrite Hconn|]. split.
    + subst w3. apply for_of_broadcast_other. rewrite Hreg. congruence.
    + intros s Hs Ho. subst w3. by apply for_of_broadcast_open.
Qed.

Lemma C6_witness :
  ("tracker-1" ≠ "" ∧
   devices (world0 (tracker None)) !! "tracker-1" = Some (tracker None) ∧
   1 ≠ 2) ∧
  connections
    (exec (on_message 2 (subscribe_frame "tracker-1"))
       (exec (on_message 1 (subscribe_frame "tracker-1"))
          (world0 (tracker None)))) !! "tracker-1" = Some 2.
Proof.
  assert (H1 : "tracker-1" ≠ "") by discriminate.
  assert (H2 : devices (world0 (tracker None)) !! "tracker-1"
               = Some (tracker None)) by reflexivity.
  assert (H3 : 1 ≠ 2) by lia.
  split; [done|].
  exact (proj1 (proj2 (C6_resubscribe_overwrites "tracker-1" 1 2
                         (tracker None) (world0 (tracker None)) H1 H2 H3))).
Defined.

(** C7: when connection [ws] closes, every mapping whose handle is [ws] is
    removed, whatever the number of device-ids it subscribed to; a broadcast
    to such a device-id afterwards returns normally and changes nothing, and
    a fix ingested for such a device is answered 201 with the two writes as
    its only effect; running the cleanup a second time changes nothing. *)
Theorem C7_close_removes_subscriptions (ws : Conn) (w : World) :
  (∀ i, connections w !! i = Some ws →
        connections (exec (on_close ws) w) !! i = None) ∧
  (∀ i c, connections (exec (on_close ws) w) !! i = Some c → c ≠ ws) ∧
  (∀ i b, connections w !! i = Some ws →
        broadcast i b (exec (on_close ws) w) = (Ok tt, exec (on_close ws) w)) ∧
  (∀ env d body lon lat,
        connections w !! deviceId d = Some ws →
        coordinates body = Array [lon; lat] →
        location_save_ok env = true → device_save_ok env = true →
        post_location env d body (exec (on_close ws) w) =
          (Ok (Created (new_location env d body (lon, lat))),
           persisted env d body (lon, lat) (exec (on_close ws) w))) ∧
  exec (on_close ws) (exec (on_close ws) w) = exec (on_close ws) w.
Proof.
  assert (Hgone : ∀ i c, connections (exec (on_close ws) w) !! i = Some c →
                         c ≠ ws).
  { intros i c. rewrite on_close_lookup.
    case_decide as Hi; [done|]. intros Hc ->. by apply Hi. }
  assert (Hnone : ∀ i, connections w !! i = Some ws →
                       connections (exec (on_close ws) w) !! i = None).
  { intros i Hi. rewrite on_close_lookup. by rewrite decide_True. }
  split; [done|]. split; [done|]. split; [|split].
  - intros i b Hi. rewrite broadcast_deliver. f_equal.
    apply deliver_unsubscribed. by apply Hnone.
  - intros env d body lon lat Hi Hc Hl Hd.
    rewrite (post_location_accepted env d body lon lat) by done.
    f_equal. unfold exec at 1.
    rewrite for_of_broadcast_unsubscribed; [done|].
    by apply Hnone.
  - apply World_eq; try done.
    apply map_eq. intros i. rewrite (on_close_lookup ws (exec (on_close ws) w)).
    case_decide as Hi; [|done].
    by destruct (Hgone i ws Hi).
Qed.

(** C8: for a fix that passes validation, when the write of the device's
    last-known position fails the route answers with the write's error and
    hands no frame to any socket; the registry and the device collection are
    as before. *)
Theorem C8_device_write_failure_aborts (env : Env) (d : Device) (body : Body)
    (lon lat : R) (w : World) :
  coordinates body = Array [lon; lat] → device_save_ok env = false →
  fst (post_location env d body w) = Ok (Next DbError) ∧
  sockets (exec (post_location env d body) w) = sockets w ∧
  connections (exec (post_location env d body) w) = connections w ∧
  devices (exec (post_location env d body) w) = devices w.
Proof.
  intros Hc Hd. unfold exec.
  destruct (location_save_ok env) eqn:Hl.
  - by rewrite (post_location_device_write_fails env d body lon lat).
  - by rewrite (post_location_location_write_fails env d body lon lat).
Qed.

Lemma C8_witness :
  (coordinates (fix_at 0 0) = Array [0%R; 0%R] ∧
   device_save_ok device_write_fails = false) ∧
  fst (post_location device_write_fails (tracker None) (fix_at 0 0)
         (world0 (tracker None))) = Ok (Next DbError) ∧
  sockets (exec (post_location device_write_fails (tracker None) (fix_at 0 0))
             (world0 (tracker None))) = sockets (world0 (tracker None)).
Proof.
  assert (H1 : coordinates (fix_at 0 0) = Array [0%R; 0%R]) by reflexivity.
  assert (H2 : device_save_ok device_write_fails = false) by reflexivity.
  split; [done|].
  pose proof (C8_device_write_failure_aborts device_write_fails (tracker None)
                (fix_at 0 0) 0 0 (world0 (tracker None)) H1 H2) as (Hr & Hs & _).
  by split.
Defined.

(** C10: closing [ws] leaves every mapping to another connection as it was,
    and touches nothing but the registry. *)
Theorem C10_close_keeps_other_subscriptions (ws c : Conn) (i : string)
    (w : World) :
  connections w !! i = Some c → c ≠ ws →
  connections (exec (on_close ws) w) !! i = Some c ∧
  sockets (exec (on_close ws) w) = sockets w ∧
  locations (exec (on_close ws) w) = locations w ∧
  devices (exec (on_close ws) w) = devices w.
Proof.
  intros Hi Hc. split; [|apply on_close_rest].
  rewrite on_close_lookup, Hi.
  rewrite decide_False; [done | congruence].
Qed.

Lemma C10_witness :
  (connections (world0 (tracker None)) !! "tracker-1" = Some viewer ∧
   viewer ≠ 3) ∧
  connections (exec (on_close 3) (world0 (tracker None))) !! "tracker-1"
    = Some viewer.
Proof.
  assert (H1 : connections (world0 (tracker None)) !! "tracker-1" = Some viewer)
    by reflexivity.
  assert (H2 : viewer ≠ 3) by (unfold viewer; lia).
  split; [done|].
  exact (proj1 (C10_close_keeps_other_subscriptions 3 viewer "tracker-1"
                  (world0 (tracker None)) H1 H2)).
Defined.

(** * Further properties *)

(** ** The sign of the distance *)

Section DistanceRange.
Local Open Scope R_scope.

Lemma calculateDistance_haversine (A B : coords) :
  calculateDistance A B =
    6371000 * (2 * JsMath.atan2 (sqrt (haversine A B))
                                (sqrt (1 - haversine A B))).
Proof. by destruct A, B. Qed.

Lemma sin_half_sq (x : R) : sin (x / 2) * sin (x / 2) = (1 - cos x) / 2.
Proof.
  pose proof (cos_2a_sin (x / 2)) as H.
  replace (2 * (x / 2)) with x in H by field. lra.
Qed.

(** The haversine term is half of one minus the cosine of the central
    angle. *)
Lemma haversine_central_angle (lon1 lat1 lon2 lat2 : R) :
  haversine (lon1, lat1) (lon2, lat2) =
    (1 - (sin (lat1 * PI / 180) * sin (lat2 * PI / 180) +
          cos (lat1 * PI / 180) * cos (lat2 * PI / 180) *
          cos ((lon2 - lon1) * PI / 180))) / 2.
Proof.
  unfold haversine.
  rewrite (sin_half_sq ((lat2 - lat1) * PI / 180)).
  rewrite !Rmult_assoc, (sin_half_sq ((lon2 - lon1) * PI / 180)).
  replace ((lat2 - lat1) * (PI / 180)) with (lat2 * (PI / 180) - lat1 * (PI / 180))
    by ring.
  replace ((lat2 - lat1) * PI / 180) with (lat2 * (PI / 180) - lat1 * (PI / 180))
    by field.
  rewrite cos_minus.
  replace (lat1 * PI / 180) with (lat1 * (PI / 180)) by field.
  replace (lat2 * PI / 180) with (lat2 * (PI / 180)) by field.
  replace ((lon2 - lon1) * PI / 180) with ((lon2 - lon1) * (PI / 180)) by field.
  field.
Qed.

Lemma unit_dot_bound (s1 c1 s2 c2 k : R) :
  s1 * s1 + c1 * c1 = 1 → s2 * s2 + c2 * c2 = 1 → -1 <= k <= 1 →
  -1 <= s1 * s2 + c1 * c2 * k <= 1.
Proof.
  intros H1 H2 Hk.
  assert (Hk2 : 0 <= c2 * c2 * (1 - k * k)).
  { apply Rmult_le_pos; [apply Rle_0_sqr | nra]. }
  pose proof (Rle_0_sqr (s1 - s2)) as Ha. unfold Rsqr in Ha.
  pose proof (Rle_0_sqr (c1 - c2 * k)) as Hb. unfold Rsqr in Hb.
  pose proof (Rle_0_sqr (s1 + s2)) as Hc. unfold Rsqr in Hc.
  pose proof (Rle_0_sqr (c1 + c2 * k)) as Hd. unfold Rsqr in Hd.
  split; nra.
Qed.

Lemma sin_cos_unit (x : R) : sin x * sin x + cos x * cos x = 1.
Proof. pose proof (sin2_cos2 x) as H. unfold Rsqr in H. exact H. Qed.

Lemma haversine_range (A B : coords) : 0 <= haversine A B <= 1.
Proof.
  destruct A as [lon1 lat1], B as [lon2 lat2].
  rewrite haversine_central_angle.
  pose proof (unit_dot_bound _ _ _ _ _
    (sin_cos_unit (lat1 * PI / 180)) (sin_cos_unit (lat2 * PI / 180))
    (COS_bound ((lon2 - lon1) * PI / 180))).
  lra.
Qed.

Lemma atan2_quadrant (y x : R) :
  0 <= y → 0 <= x → 0 <= JsMath.atan2 y x <= PI / 2.
Proof.
  intros Hy Hx. unfold JsMath.atan2. pose proof PI_RGT_0 as Hpi.
  destruct (Rlt_dec 0 x) as [Hpos|Hn].
  - pose proof (atan_bound (y / x)) as [_ Hu].
    split; [|lra].
    destruct (Req_dec y 0) as [->|Hy0].
    + replace (0 / x) with 0 by (field; lra). rewrite atan_0. lra.
    + rewrite <- atan_0. left. apply atan_increasing.
      apply Rdiv_lt_0_compat; lra.
  - destruct (Rlt_dec x 0) as [Hneg|_]; [lra|].
    destruct (Rlt_dec 0 y) as [_|_]; [lra|].
    destruct (Rlt_dec y 0) as [Hyn|_]; lra.
Qed.

End DistanceRange.

(** ** The geofence loop on any device state *)

Section LoopFacts.
Implicit Types (w : World) (d : Device) (p : coords) (g : Geofence)
  (c : Conn) (i : string) (f : Frame).

Lemma deliver_frames_cases i f w c :
  frames c (deliver i f w) = frames c w ∨
  (connections w !! i = Some c ∧ frames c (deliver i f w) = frames c w ++ [f]).
Proof.
  destruct (decide (connections w !! i = Some c)) as [Hi|Hi];
    [|left; by apply deliver_frames_other].
  unfold deliver. rewrite Hi.
  destruct (sockets w !! c) as [s|] eqn:Hs; [|by left].
  case_decide; [|by left].
  right. split; [done|]. unfold frames; simpl.
  by rewrite lookup_alter_eq, Hs.
Qed.

Lemma deliver_rest i f w :
  locations (deliver i f w) = locations w ∧
  devices (deliver i f w) = devices w.
Proof. unfold deliver. by repeat case_match. Qed.

Lemma deliver_readyState i f w c :
  readyState <$> sockets (deliver i f w) !! c = readyState <$> sockets w !! c.
Proof.
  unfold deliver.
  destruct (connections w !! i) as [c'|]; [|done].
  destruct (sockets w !! c') as [s|] eqn:Hs; [|done].
  case_decide; [|done]. simpl.
  destruct (decide (c = c')) as [->|Hc].
  - by rewrite lookup_alter_eq, Hs.
  - by rewrite lookup_alter_ne.
Qed.

Lemma for_of_broadcast_rest i (bs : list Broadcast) w :
  locations (exec (for_of bs (broadcast i)) w) = locations w ∧
  devices (exec (for_of bs (broadcast i)) w) = devices w.
Proof.
  revert w. induction bs as [|b bs IH]; intros w; [done|].
  unfold exec in *. cbn [for_of]. unfold bind.
  rewrite broadcast_deliver. cbv beta iota.
  destruct (IH (deliver i (frame_of i b) w)) as [-> ->].
  apply deliver_rest.
Qed.

Lemma negative_radius_outside p g :
  (radius g < 0)%R → spec_inside p g = false.
Proof.
  intros Hr. unfold spec_inside. apply leb_false.
  pose proof (haversine_range p (center g)) as Hh.
  pose proof (calculateDistance_haversine p (center g)) as E.
  pose proof (atan2_quadrant (sqrt (haversine p (center g)))
                (sqrt (1 - haversine p (center g)))
                (sqrt_pos _) (sqrt_pos _)) as [Ha _].
  rewrite E. nra.
Qed.

End LoopFacts.

(** X4: the loop, run for a device state and a new position, hands the
    subscribed open connection exactly the transitions the evaluation
    specifies with the device's [lastLocation] for the previous position, in
    the order of the geofence list, and hands every other connection
    nothing. *)
Theorem X4_loop_sends_transitions (d : Device) (p : coords) (c : Conn)
    (s : Socket) (w : World) :
  connections w !! deviceId d = Some c → sockets w !! c = Some s →
  readyState s = OPEN →
  fst (check_geofences d p w) = Ok tt ∧
  frames c (exec (check_geofences d p) w) =
    sent s ++ map (event_frame (deviceId d))
                (spec_evaluate (loop_previous d) p (geofences d)) ∧
  ∀ c', c' ≠ c →
    frames c' (exec (check_geofences d p) w) = frames c' w.
Proof.
  intros Hi Hs Ho. unfold exec. rewrite check_geofences_broadcasts.
  set (bs := event_broadcasts
               (spec_evaluate (loop_previous d) p (geofences d))).
  destruct (for_of_broadcast_ok (deviceId d) bs w) as [Hok _].
  split; [done|]. split.
  - fold (exec (for_of bs (broadcast (deviceId d))) w).
    rewrite (for_of_broadcast_open _ _ _ c s) by done.
    subst bs. by rewrite frame_of_event_broadcasts.
  - intros c' Hc.
    fold (exec (for_of bs (broadcast (deviceId d))) w).
    apply for_of_broadcast_other. rewrite Hi. congruence.
Qed.

Lemma X4_witness :
  (connections (world0 (tracker (Some (stored 0 0))))
     !! deviceId (tracker (Some (stored 0 0))) = Some viewer ∧
   sockets (world0 (tracker (Some (stored 0 0)))) !! viewer
     = Some {| readyState := OPEN; sent := [] |} ∧
   readyState {| readyState := OPEN; sent := [] |} = OPEN) ∧
  frames viewer
    (exec (check_geofences (tracker (Some (stored 0 0))) (0, 90)%R)
       (world0 (tracker (Some (stored 0 0)))))
  = [] ++ map (event_frame "tracker-1")
            (spec_evaluate (loop_previous (tracker (Some (stored 0 0))))
               (0, 90)%R [depot]).
Proof.
  assert (H1 : connections (world0 (tracker (Some (stored 0 0))))
     !! deviceId (tracker (Some (stored 0 0))) = Some viewer) by reflexivity.
  assert (H2 : sockets (world0 (tracker (Some (stored 0 0)))) !! viewer
     = Some {| readyState := OPEN; sent := [] |}) by reflexivity.
  assert (H3 : readyState {| readyState := OPEN; sent := [] |} = OPEN)
    by reflexivity.
  split; [done|].
  exact (proj1 (proj2 (X4_loop_sends_transitions
    (tracker (Some (stored 0 0))) (0, 90)%R viewer _
    (world0 (tracker (Some (stored 0 0)))) H1 H2 H3))).
Defined.

(** X5: a geofence with a negative radius contains no point, so the loop
    body sends nothing for it, whatever the device state and the new
    position. *)
Theorem X5_negative_radius_inert (d : Device) (p : coords) (g : Geofence)
    (w : World) :
  (radius g < 0)%R → check_geofence d p g w = (Ok tt, w).
Proof.
  intros Hr. rewrite check_geofence_transition.
  unfold spec_transition.
  rewrite (negative_radius_outside p g Hr).
  destruct (loop_previous d) as [q|]; [|done].
  by rewrite (negative_radius_outside q g Hr).
Qed.

Lemma X5_witness :
  (radius {| name := "void"; radius := -1; center := (0, 0)%R |} < 0)%R ∧
  check_geofence (tracker None) (0, 0)%R
    {| name := "void"; radius := -1; center := (0, 0)%R |}
    (world0 (tracker None)) = (Ok tt, world0 (tracker None)).
Proof.
  assert (H : (radius {| name := "void"; radius := -1;
                         center := (0, 0)%R |} < 0)%R) by (simpl; lra).
  split; [exact H|].
  exact (X5_negative_radius_inert (tracker None) (0, 0)%R _
           (world0 (tracker None)) H).
Defined.

(** ** What an ingestion request stores and sends *)

(** X6: an ingestion request hands at most one frame to at most one
    connection: every connection's frames are as before, except that the
    connection registered for the device may get one [location_update]
    carrying the submitted coordinates.  No request adds a [geofence_event]
    frame. *)
Theorem X6_ingest_sends_one_update (env : Env) (d : Device) (body : Body)
    (w : World) (c : Conn) :
  frames c (exec (post_location env d body) w) = frames c w ∨
  (connections w !! deviceId d = Some c ∧
   ∃ lon lat, coordinates body = Array [lon; lat] ∧
     frames c (exec (post_location env d body) w) =
       frames c w ++
       [location_update (deviceId d) (location_data env body (lon, lat))]).
Proof.
  destruct (post_location_outcomes env d body w)
    as [->|[(lon & lat & Hc & ->)|(lon & lat & Hc & ->)]];
    [by left | by left |].
  destruct (deliver_frames_cases (deviceId d)
    (location_update (deviceId d) (location_data env body (lon, lat)))
    (persisted env d body (lon, lat) w) c) as [E|[Hi E]];
    [left; exact E | right].
  split; [exact Hi|]. exists lon, lat. split; [done | exact E].
Qed.

(** X7: the two writes of a fix are not atomic.  For a fix that passes
    validation: if the location write fails nothing at all is changed; if the
    location write succeeds and the device write fails, the location document
    stays stored while the Device collection, and so the device's last
    location, is as before. *)
Theorem X7_writes_not_atomic (env : Env) (d : Device) (body : Body)
    (lon lat : R) (w : World) :
  coordinates body = Array [lon; lat] →
  (location_save_ok env = false →
     post_location env d body w = (Ok (Next DbError), w)) ∧
  (location_save_ok env = true → device_save_ok env = false →
     fst (post_location env d body w) = Ok (Next DbError) ∧
     locations (exec (post_location env d body) w) =
       locations w ++ [new_location env d body (lon, lat)] ∧
     devices (exec (post_location env d body) w) = devices w).
Proof.
  intros Hc. split.
  - intros Hl. by apply (post_location_location_write_fails env d body lon lat).
  - intros Hl Hd. unfold exec.
    by rewrite (post_location_device_write_fails env d body lon lat).
Qed.

Lemma X7_witness :
  coordinates (fix_at 0 0) = Array [0%R; 0%R] ∧
  locations (exec (post_location device_write_fails (tracker None) (fix_at 0 0))
               (world0 (tracker None))) =
    [] ++ [new_location device_write_fails (tracker None) (fix_at 0 0)
             (0, 0)%R].
Proof.
  assert (H : coordinates (fix_at 0 0) = Array [0%R; 0%R]) by reflexivity.
  split; [exact H|].
  exact (proj1 (proj2 (proj2 (X7_writes_not_atomic device_write_fails
    (tracker None) (fix_at 0 0) 0 0 (world0 (tracker None)) H)
    eq_refl eq_refl))).
Defined.

(** X8: what an accepted fix leaves stored.  The location document is
    appended to the collection; the device document under the device's id
    now has the fix as its last location and the geofences it had; every
    other device document, and the registry, are untouched. *)
Theorem X8_accepted_fix_stored (env : Env) (d : Device) (body : Body)
    (lon lat : R) (w : World) :
  coordinates body = Array [lon; lat] →
  location_save_ok env = true → device_save_ok env = true →
  locations (exec (post_location env d body) w) =
    locations w ++ [new_location env d body (lon, lat)] ∧
  (∃ d', Device_findOne (deviceId d) (exec (post_location env d body) w)
           = (Ok (Some d'), exec (post_location env d body) w) ∧
         loop_previous d' = Some (lon, lat) ∧
         geofences d' = geofences d ∧ deviceId d' = deviceId d) ∧
  (∀ j, j ≠ deviceId d →
        devices (exec (post_location env d body) w) !! j = devices w !! j) ∧
  connections (exec (post_location env d body) w) = connections w.
Proof.
  intros Hc Hl Hd.
  rewrite (post_location_accepted_world env d body lon lat) by done.
  set (f := location_update _ _). set (w1 := persisted env d body (lon, lat) w).
  destruct (deliver_rest (deviceId d) f w1) as [El Ed].
  split; [by rewrite El|]. split; [|split].
  - exists (updated_device env d (lon, lat)).
    unfold Device_findOne, gets. rewrite Ed. subst w1. simpl.
    by rewrite lookup_insert_eq.
  - intros j Hj. rewrite Ed. subst w1. simpl.
    by rewrite lookup_insert_ne.
  - by rewrite deliver_connections.
Qed.

Lemma X8_witness :
  (coordinates (fix_at 0 90) = Array [0%R; 90%R] ∧
   location_save_ok writes_ok = true ∧ device_save_ok writes_ok = true) ∧
  locations (exec (post_location writes_ok (tracker None) (fix_at 0 90))
               (world0 (tracker None))) =
    [] ++ [new_location writes_ok (tracker None) (fix_at 0 90) (0, 90)%R].
Proof.
  assert (H1 : coordinates (fix_at 0 90) = Array [0%R; 90%R]) by reflexivity.
  assert (H2 : location_save_ok writes_ok = true) by reflexivity.
  assert (H3 : device_save_ok writes_ok = true) by reflexivity.
  split; [done|].
  exact (proj1 (X8_accepted_fix_stored writes_ok (tracker None) (fix_at 0 90)
                  0 90 (world0 (tracker None)) H1 H2 H3)).
Defined.

(** ** Location queries *)

#[global] Instance newer_first_total : Total newer_first.
Proof. intros a b. unfold newer_first. lia. Qed.

#[global] Instance newer_first_trans : Transitive newer_first.
Proof. intros a b c. unfold newer_first. lia. Qed.

Section Queries.
Implicit Types (w : World) (i : string) (l : Location).

Lemma device_query i l :
  String.eqb (loc_deviceId l) i ↔ loc_deviceId l = i.
Proof. by rewrite Is_true_true, String.eqb_eq. Qed.

Lemma history_query_within i (startTime endTime : option Z) l :
  history_query i startTime endTime l ↔
  loc_deviceId l = i ∧ within startTime endTime (loc_timestamp l).
Proof.
  unfold history_query, within. rewrite !andb_True, device_query.
  destruct startTime as [a|], endTime as [b|];
    rewrite ?Is_true_true, ?Z.leb_le;
    (split;
     [ intros [[Hi Ha] Hb]; split; [done|];
       split; intros t Ht; by simplify_eq
     | intros (Hi & Ha & Hb); repeat split; auto ]).
Qed.

(** The first of a sorted list is at least as new as every element. *)
Lemma newest_first_head (ls : list Location) l :
  StronglySorted newer_first ls → head ls = Some l →
  ∀ l', l' ∈ ls → (loc_timestamp l' ≤ loc_timestamp l)%Z.
Proof.
  intros Hs Hh l' Hl'. destruct ls as [|h t]; [done|].
  simplify_eq/=. apply StronglySorted_cons in Hs as [Hall _].
  apply elem_of_cons in Hl' as [->|Hin]; [lia|].
  rewrite Forall_forall in Hall. by apply Hall.
Qed.

Lemma getLatestLocation_newest i w l :
  fst (getLatestLocation i w) = Ok (Some l) →
  l ∈ locations w ∧ loc_deviceId l = i ∧
  ∀ l', l' ∈ locations w → loc_deviceId l' = i →
        (loc_timestamp l' ≤ loc_timestamp l)%Z.
Proof.
  unfold getLatestLocation, gets; simpl. intros [= Hh].
  set (ls := merge_sort newer_first
               (filter (λ l, String.eqb (loc_deviceId l) i) (locations w)))
    in Hh.
  assert (Hp : ls ≡ₚ filter (λ l, String.eqb (loc_deviceId l) i) (locations w))
    by apply merge_sort_Permutation.
  assert (Hin : ∀ x, x ∈ ls ↔ loc_deviceId x = i ∧ x ∈ locations w).
  { intros x. by rewrite Hp, list_elem_of_filter, device_query. }
  assert (Hl : l ∈ ls) by (by apply head_Some_elem_of).
  apply Hin in Hl as [Hi Hl]. split; [done|]. split; [done|].
  intros l' Hl' Hi'.
  apply (newest_first_head ls l); [|done|by apply Hin].
  apply StronglySorted_merge_sort; apply _.
Qed.

Lemma getLatestLocation_none i w :
  fst (getLatestLocation i w) = Ok None →
  ∀ l', l' ∈ locations w → loc_deviceId l' ≠ i.
Proof.
  unfold getLatestLocation, gets; simpl. intros [= Hh] l' Hl' Hi.
  apply head_None in Hh.
  assert (Hin : l' ∈ merge_sort newer_first
            (filter (λ l, String.eqb (loc_deviceId l) i) (locations w))).
  { rewrite merge_sort_Permutation, list_elem_of_filter, device_query. done. }
  rewrite Hh in Hin. by apply elem_of_nil in Hin.
Qed.

End Queries.

Section HistoryRoute.
Implicit Types (w : World) (i : string) (startTime endTime : QueryTime).

Lemma get_history_invalid i startTime endTime w :
  startTime = InvalidDate ∨ endTime = InvalidDate →
  get_history i startTime endTime w = (Ok (HistoryNext CastError), w).
Proof. intros [->| ->]; [done|]. by destruct startTime. Qed.

Lemma get_history_valid i startTime endTime w :
  startTime ≠ InvalidDate → endTime ≠ InvalidDate →
  get_history i startTime endTime w =
    (Ok (HistoryOk (length (selected i startTime endTime w))
           (selected i startTime endTime w)), w).
Proof. intros Hs He. by destruct startTime, endTime. Qed.

End HistoryRoute.

(** X9: the history route, asked with a bound that is no date, answers with
    the cast error and no documents.  Asked with bounds that are absent or
    dates, it answers with exactly the stored documents of the device whose
    timestamps are within the bounds (both inclusive, an absent bound does
    not restrict): each of them as often as it is stored, none else, with
    their count.  Either way nothing is changed. *)
Theorem X9_history_content (i : string) (startTime endTime : QueryTime)
    (w : World) :
  (startTime = InvalidDate ∨ endTime = InvalidDate →
     get_history i startTime endTime w = (Ok (HistoryNext CastError), w)) ∧
  (startTime ≠ InvalidDate → endTime ≠ InvalidDate →
     ∃ found,
       get_history i startTime endTime w
         = (Ok (HistoryOk (length found) found), w) ∧
       found ≡ₚ filter (λ l, history_query i (instant_of startTime)
                               (instant_of endTime) l) (locations w) ∧
       ∀ l, l ∈ found ↔
            l ∈ locations w ∧ loc_deviceId l = i ∧
            within (instant_of startTime) (instant_of endTime)
              (loc_timestamp l)).
Proof.
  split; [apply get_history_invalid|]. intros Hs He.
  exists (selected i startTime endTime w).
  split; [by apply get_history_valid|].
  split; [apply merge_sort_Permutation|].
  intros l. unfold selected.
  rewrite merge_sort_Permutation, list_elem_of_filter, history_query_within.
  tauto.
Qed.

(** X10: the history comes newest first: when the bounds are absent or
    dates the route answers with documents of which none precedes one with
    a later timestamp; when a bound is no date it answers with the cast
    error and no documents. *)
Theorem X10_history_newest_first (i : string) (startTime endTime : QueryTime)
    (w : World) :
  (startTime ≠ InvalidDate → endTime ≠ InvalidDate →
     ∃ found,
       fst (get_history i startTime endTime w)
         = Ok (HistoryOk (length found) found) ∧
       StronglySorted newer_first found ∧
       ∀ n m a b, n < m → found !! n = Some a → found !! m = Some b →
                  (loc_timestamp b ≤ loc_timestamp a)%Z) ∧
  (startTime = InvalidDate ∨ endTime = InvalidDate →
     fst (get_history i startTime endTime w) = Ok (HistoryNext CastError)).
Proof.
  split; [|intros H; by rewrite get_history_invalid].
  intros Hs He. exists (selected i startTime endTime w).
  assert (Hsorted : StronglySorted newer_first (selected i startTime endTime w))
    by (apply StronglySorted_merge_sort; apply _).
  split; [by rewrite get_history_valid|]. split; [done|].
  revert Hsorted. generalize (selected i startTime endTime w).
  intros ls Hsorted.
  induction Hsorted as [|h t Hsorted IH Hall]; intros n m a b Hnm Hn Hm.
  - by rewrite lookup_nil in Hn.
  - destruct m as [|m]; [lia|]. destruct n as [|n].
    + simplify_eq/=. rewrite Forall_forall in Hall.
      apply (Hall b). by eapply list_elem_of_lookup_2.
    + simpl in Hn, Hm. apply (IH n m); [lia | done | done].
Qed.


(** X11: the latest route answers 404 exactly when no document of the device
    is stored; otherwise it answers with a stored document of the device
    that no document of the device is newer than. *)
Theorem X11_latest_is_newest (i : string) (w : World) :
  match fst (get_latest i w) with
  | Ok (LatestOk l) =>
      l ∈ locations w ∧ loc_deviceId l = i ∧
      ∀ l', l' ∈ locations w → loc_deviceId l' = i →
            (loc_timestamp l' ≤ loc_timestamp l)%Z
  | Ok (LatestNext e) =>
      e = ApiError 404 "No location data found for this device" ∧
      ∀ l', l' ∈ locations w → loc_deviceId l' ≠ i
  | Throw _ => False
  end.
Proof.
  pose proof (getLatestLocation_newest i w) as Hsome.
  pose proof (getLatestLocation_none i w) as Hnone.
  unfold get_latest, try_catch, bind.
  destruct (getLatestLocation i w) as [[[l|]|e] w1] eqn:E; simpl in *.
  - by apply Hsome.
  - split; [done|]. by apply Hnone.
  - unfold getLatestLocation, gets in E. discriminate.
Qed.

Section IngestThenQuery.
Implicit Types (w : World) (d : Device) (env : Env) (body : Body).

Lemma accepted_locations env d body lon lat w :
  coordinates body = Array [lon; lat] →
  location_save_ok env = true → device_save_ok env = true →
  locations (exec (post_location env d body) w) =
    locations w ++ [new_location env d body (lon, lat)].
Proof.
  intros Hc Hl Hd.
  rewrite (post_location_accepted_world env d body lon lat) by done.
  by destruct (deliver_rest (deviceId d)
    (location_update (deviceId d) (location_data env body (lon, lat)))
    (persisted env d body (lon, lat) w)) as [-> _].
Qed.

Lemma post_location_locations env d body w :
  locations (exec (post_location env d body) w) = locations w ∨
  ∃ p, locations (exec (post_location env d body) w) =
         locations w ++ [new_location env d body p].
Proof.
  destruct (post_location_outcomes env d body w)
    as [->|[(lon & lat & Hc & ->)|(lon & lat & Hc & ->)]].
  - by left.
  - right. by exists (lon, lat).
  - right. exists (lon, lat).
    by destruct (deliver_rest (deviceId d)
      (location_update (deviceId d) (location_data env body (lon, lat)))
      (persisted env d body (lon, lat) w)) as [-> _].
Qed.

End IngestThenQuery.

(** X12: ingest, then ask for the latest: after an accepted fix whose
    timestamp is later than that of every stored document of the device, the
    latest route for the device answers with the document of that fix. *)
Theorem X12_latest_after_ingest (env : Env) (d : Device) (body : Body)
    (lon lat : R) (w : World) :
  coordinates body = Array [lon; lat] →
  location_save_ok env = true → device_save_ok env = true →
  (∀ l, l ∈ locations w → loc_deviceId l = deviceId d →
        (loc_timestamp l < now env)%Z) →
  fst (get_latest (deviceId d) (exec (post_location env d body) w)) =
    Ok (LatestOk (new_location env d body (lon, lat))).
Proof.
  intros Hc Hl Hd Hold.
  set (w' := exec (post_location env d body) w).
  set (new := new_location env d body (lon, lat)).
  assert (El : locations w' = locations w ++ [new])
    by (by apply accepted_locations).
  assert (Hnew : new ∈ locations w') by (rewrite El; set_solver).
  pose proof (getLatestLocation_newest (deviceId d) w') as Hsome.
  pose proof (getLatestLocation_none (deviceId d) w') as Hnone.
  unfold get_latest, try_catch, bind.
  destruct (getLatestLocation (deviceId d) w') as [[[l|]|e] w1] eqn:E;
    simpl in *.
  - destruct (Hsome l eq_refl) as (Hin & Hi & Hmax).
    rewrite El in Hin. apply elem_of_app in Hin as [Hin|Hin].
    + specialize (Hmax new Hnew eq_refl). specialize (Hold l Hin Hi).
      subst new. simpl in Hmax. lia.
    + apply list_elem_of_singleton in Hin. by subst.
  - by destruct (Hnone eq_refl new Hnew).
  - unfold getLatestLocation, gets in E. discriminate.
Qed.

Lemma X12_witness :
  (coordinates (fix_at 0 90) = Array [0%R; 90%R] ∧
   location_save_ok writes_ok = true ∧ device_save_ok writes_ok = true ∧
   ∀ l, l ∈ locations (world1 (tracker None)) →
        loc_deviceId l = deviceId (tracker None) →
        (loc_timestamp l < now writes_ok)%Z) ∧
  fst (get_latest "tracker-1"
         (exec (post_location writes_ok (tracker None) (fix_at 0 90))
            (world1 (tracker None)))) =
    Ok (LatestOk (new_location writes_ok (tracker None) (fix_at 0 90)
                    (0, 90)%R)).
Proof.
  assert (H1 : coordinates (fix_at 0 90) = Array [0%R; 90%R]) by reflexivity.
  assert (H2 : location_save_ok writes_ok = true) by reflexivity.
  assert (H3 : device_save_ok writes_ok = true) by reflexivity.
  assert (H4 : ∀ l, l ∈ locations (world1 (tracker None)) →
                    loc_deviceId l = deviceId (tracker None) →
                    (loc_timestamp l < now writes_ok)%Z).
  { intros l Hl _. apply list_elem_of_singleton in Hl. subst l. simpl. lia. }
  split; [done|].
  exact (X12_latest_after_ingest writes_ok (tracker None) (fix_at 0 90) 0 90
           (world1 (tracker None)) H1 H2 H3 H4).
Defined.

Section QueryFrame.
Implicit Types (w : World) (d : Device) (env : Env) (body : Body).

Lemma filter_other_device (P : Location → Prop) `{∀ l, Decision (P l)}
    (ls : list Location) (x : Location) :
  ¬ P x → filter P (ls ++ [x]) = filter P ls.
Proof.
  intros Hx. rewrite filter_app, filter_cons, decide_False by done.
  by rewrite filter_nil, app_nil_r.
Qed.

Lemma ingest_filter_other env d body w (P : Location → Prop)
    `{∀ l, Decision (P l)} :
  (∀ l, P l → loc_deviceId l ≠ deviceId d) →
  filter P (locations (exec (post_location env d body) w)) =
    filter P (locations w).
Proof.
  intros HP.
  destruct (post_location_locations env d body w) as [->|[p ->]]; [done|].
  apply filter_other_device. intros Hp. by apply (HP _ Hp).
Qed.

End QueryFrame.

(** X13: ingesting a fix for one device changes no answer of the history
    and latest routes for another device. *)
Theorem X13_ingest_keeps_other_histories (env : Env) (d : Device)
    (body : Body) (j : string) (startTime endTime : QueryTime) (w : World) :
  j ≠ deviceId d →
  fst (get_history j startTime endTime (exec (post_location env d body) w)) =
    fst (get_history j startTime endTime w) ∧
  fst (get_latest j (exec (post_location env d body) w)) =
    fst (get_latest j w).
Proof.
  intros Hj. split.
  - destruct (decide (startTime = InvalidDate)) as [Hs|Hs];
      [by rewrite !get_history_invalid by (by left)|].
    destruct (decide (endTime = InvalidDate)) as [He|He];
      [by rewrite !get_history_invalid by (by right)|].
    rewrite !get_history_valid by done. cbn [fst]. unfold selected.
    rewrite (ingest_filter_other env d body w); [done|].
    intros l Hl. apply history_query_within in Hl as [Hi _]. congruence.
  - unfold get_latest, try_catch, bind, getLatestLocation, gets.
    rewrite (ingest_filter_other env d body w).
    + by destruct (head _).
    + intros l Hl. apply device_query in Hl. congruence.
Qed.

Lemma X13_witness :
  "tracker-2" ≠ deviceId (tracker None) ∧
  fst (get_latest "tracker-2"
         (exec (post_location writes_ok (tracker None) (fix_at 0 90))
            (world1 (tracker None)))) =
    fst (get_latest "tracker-2" (world1 (tracker None))).
Proof.
  assert (H : "tracker-2" ≠ deviceId (tracker None)) by discriminate.
  split; [exact H|].
  exact (proj2 (X13_ingest_keeps_other_histories writes_ok (tracker None)
                  (fix_at 0 90) "tracker-2" NoTime NoTime
                  (world1 (tracker None)) H)).
Defined.

(** ** Subscriptions and broadcasts *)

Section SubscriptionFacts.
Implicit Types (w : World) (c ws : Conn) (i : string).

Lemma subscribe_unknown i ws w :
  i ≠ "" → devices w !! i = None →
  on_message ws (subscribe_frame i) w =
    (Ok tt, set_sockets (alter (push (error_frame "Device not found")) ws) w).
Proof.
  intros Hi Hd.
  unfold on_message, subscribe_frame, try_catch, bind; simpl.
  destruct (String.eqb i "") eqn:E; [by apply String.eqb_eq in E|].
  unfold Device_findOne, gets; simpl. by rewrite Hd.
Qed.

Lemma subscribe_devices i c (d : Device) w :
  i ≠ "" → devices w !! i = Some d →
  devices (exec (on_message c (subscribe_frame i)) w) = devices w.
Proof.
  intros Hi Hd. unfold exec. by rewrite (subscribe_known i c d w).
Qed.

End SubscriptionFacts.

(** X14: a subscribe request for a device-id that the schema's trim leaves
    as it is (it starts and ends with a visible character, so the query
    looks for the id itself) and that is not in the Device collection is
    answered with the error frame 'Device not found', and the registry is
    left as it was. *)
Theorem X14_subscribe_unknown_device (ws : Conn) (i : string) (s : Socket)
    (w : World) :
  unpadded i = true → devices w !! i = None → sockets w !! ws = Some s →
  fst (on_message ws (subscribe_frame i) w) = Ok tt ∧
  connections (exec (on_message ws (subscribe_frame i)) w) = connections w ∧
  frames ws (exec (on_message ws (subscribe_frame i)) w) =
    sent s ++ [error_frame "Device not found"].
Proof.
  intros Hu Hd Hs.
  assert (Hi : i ≠ "") by (intros ->; discriminate).
  unfold exec. rewrite subscribe_unknown by done.
  split; [done|]. split; [done|].
  unfold frames; simpl. by rewrite lookup_alter_eq, Hs.
Qed.

Lemma X14_witness :
  (unpadded "ghost" = true ∧
   devices (world0 (tracker None)) !! "ghost" = None ∧
   sockets (world0 (tracker None)) !! viewer
     = Some {| readyState := OPEN; sent := [] |}) ∧
  frames viewer (exec (on_message viewer (subscribe_frame "ghost"))
                   (world0 (tracker None)))
    = [] ++ [error_frame "Device not found"].
Proof.
  assert (H1 : unpadded "ghost" = true) by reflexivity.
  assert (H2 : devices (world0 (tracker None)) !! "ghost" = None)
    by reflexivity.
  assert (H3 : sockets (world0 (tracker None)) !! viewer
               = Some {| readyState := OPEN; sent := [] |}) by reflexivity.
  split; [done|].
  exact (proj2 (proj2 (X14_subscribe_unknown_device viewer "ghost" _
                         (world0 (tracker None)) H1 H2 H3))).
Defined.


(** X15: a subscriber that was replaced is not restored.  After connection
    [c1] and then a different connection [c2] subscribe to a device, and
    [c2] closes, the device has no subscriber: every later broadcast for it
    is dropped, although [c1] never closed and its socket is as it was. *)
Theorem X15_replaced_subscriber_not_restored (i : string) (c1 c2 : Conn)
    (d : Device) (w : World) :
  i ≠ "" → devices w !! i = Some d → c1 ≠ c2 →
  let w2 := exec (on_message c2 (subscribe_frame i))
              (exec (on_message c1 (subscribe_frame i)) w) in
  let w3 := exec (on_close c2) w2 in
  connections w3 !! i = None ∧
  sockets w3 !! c1 = sockets w2 !! c1 ∧
  ∀ bs : list Broadcast, for_of bs (broadcast i) w3 = (Ok tt, w3).
Proof.
  intros Hi Hd Hc w2 w3.
  assert (Hd1 : devices (exec (on_message c1 (subscribe_frame i)) w) !! i
                = Some d) by (by rewrite (subscribe_devices i c1 d)).
  assert (Hreg : connections w2 !! i = Some c2).
  { subst w2. unfold exec at 1.
    rewrite (subscribe_known i c2 d) by done. simpl. apply lookup_insert_eq. }
  assert (Hnone : connections w3 !! i = None).
  { subst w3. rewrite on_close_lookup, Hreg. by rewrite decide_True. }
  split; [done|]. split; [done|].
  intros bs. by apply for_of_broadcast_unsubscribed.
Qed.

Lemma X15_witness :
  ("tracker-1" ≠ "" ∧
   devices (world0 (tracker None)) !! "tracker-1" = Some (tracker None) ∧
   1 ≠ 2) ∧
  connections
    (exec (on_close 2)
       (exec (on_message 2 (subscribe_frame "tracker-1"))
          (exec (on_message 1 (subscribe_frame "tracker-1"))
             (world0 (tracker None))))) !! "tracker-1" = None.
Proof.
  assert (H1 : "tracker-1" ≠ "") by discriminate.
  assert (H2 : devices (world0 (tracker None)) !! "tracker-1"
               = Some (tracker None)) by reflexivity.
  assert (H3 : 1 ≠ 2) by lia.
  split; [done|].
  exact (proj1 (X15_replaced_subscriber_not_restored "tracker-1" 1 2
                  (tracker None) (world0 (tracker None)) H1 H2 H3)).
Defined.

(** X16: one connection can hold subscriptions to several devices: after it
    subscribes to two different devices the registry maps both ids to it,
    and a broadcast for either device reaches it, in the order the
    broadcasts are made. *)
Theorem X16_one_connection_two_devices (ws : Conn) (i j : string)
    (di dj : Device) (s : Socket) (w : World) :
  i ≠ "" → j ≠ "" → i ≠ j →
  devices w !! i = Some di → devices w !! j = Some dj →
  sockets w !! ws = Some s → readyState s = OPEN →
  let w2 := exec (on_message ws (subscribe_frame j))
              (exec (on_message ws (subscribe_frame i)) w) in
  connections w2 !! i = Some ws ∧ connections w2 !! j = Some ws ∧
  ∀ b1 b2,
    frames ws (exec (broadcast j b2) (exec (broadcast i b1) w2)) =
      sent s ++ [subscribed i; subscribed j; frame_of i b1; frame_of j b2].
Proof.
  intros Hi Hj Hij Hdi Hdj Hs Ho w2.
  assert (Hdj1 : devices (exec (on_message ws (subscribe_frame i)) w) !! j
                 = Some dj) by (by rewrite (subscribe_devices i ws di)).
  assert (E2 : w2 = set_sockets (alter (push (subscribed j)) ws)
                      (set_connections (<[j := ws]>)
                         (set_sockets (alter (push (subscribed i)) ws)
                            (set_connections (<[i := ws]>) w)))).
  { subst w2. unfold exec at 1. rewrite (subscribe_known j ws dj) by done.
    unfold exec. by rewrite (subscribe_known i ws di). }
  assert (Hri : connections w2 !! i = Some ws).
  { rewrite E2. simpl. rewrite lookup_insert_ne by done.
    apply lookup_insert_eq. }
  assert (Hrj : connections w2 !! j = Some ws).
  { rewrite E2. simpl. apply lookup_insert_eq. }
  assert (Hs2 : sockets w2 !! ws
                = Some (push (subscribed j) (push (subscribed i) s))).
  { rewrite E2. simpl. by rewrite !lookup_alter_eq, Hs. }
  split; [done|]. split; [done|]. intros b1 b2.
  unfold exec. rewrite !broadcast_deliver. cbn [snd].
  set (f1 := frame_of i b1). set (f2 := frame_of j b2).
  pose proof (deliver_open i f1 w2 ws _ Hri Hs2 Ho) as Hs3.
  assert (Hrj3 : connections (deliver i f1 w2) !! j = Some ws)
    by (by rewrite deliver_connections).
  pose proof (deliver_open j f2 _ ws _ Hrj3 Hs3 Ho) as Hs4.
  unfold frames. rewrite Hs4. simpl.
  by rewrite <- !app_assoc.
Qed.

Lemma X16_witness :
  ("tracker-1" ≠ "" ∧ "tracker-2" ≠ "" ∧ "tracker-1" ≠ "tracker-2" ∧
   devices world2 !! "tracker-1" = Some (tracker None) ∧
   devices world2 !! "tracker-2" = Some second ∧
   sockets world2 !! viewer = Some {| readyState := OPEN; sent := [] |} ∧
   readyState {| readyState := OPEN; sent := [] |} = OPEN) ∧
  connections
    (exec (on_message viewer (subscribe_frame "tracker-2"))
       (exec (on_message viewer (subscribe_frame "tracker-1")) world2))
    !! "tracker-2" = Some viewer.
Proof.
  assert (H1 : "tracker-1" ≠ "") by discriminate.
  assert (H2 : "tracker-2" ≠ "") by discriminate.
  assert (H3 : "tracker-1" ≠ "tracker-2") by discriminate.
  assert (H4 : devices world2 !! "tracker-1" = Some (tracker None))
    by reflexivity.
  assert (H5 : devices world2 !! "tracker-2" = Some second) by reflexivity.
  assert (H6 : sockets world2 !! viewer
               = Some {| readyState := OPEN; sent := [] |}) by reflexivity.
  assert (H7 : readyState {| readyState := OPEN; sent := [] |} = OPEN)
    by reflexivity.
  split; [done|].
  exact (proj1 (proj2 (X16_one_connection_two_devices viewer
    "tracker-1" "tracker-2" (tracker None) second _ world2
    H1 H2 H3 H4 H5 H6 H7))).
Defined.

(** X17: a broadcast is one frame to one socket, or nothing.  It never
    fails and never changes the registry, the collections or a socket's
    [readyState]; the socket registered for the device, if it is open, is
    handed the frame; a registered socket that is not open, or a device
    without subscriber, makes the broadcast a no-op; no other socket is
    handed anything. *)
Theorem X17_broadcast_one_socket (i : string) (b : Broadcast) (w : World) :
  fst (broadcast i b w) = Ok tt ∧
  connections (exec (broadcast i b) w) = connections w ∧
  locations (exec (broadcast i b) w) = locations w ∧
  devices (exec (broadcast i b) w) = devices w ∧
  (∀ c, readyState <$> sockets (exec (broadcast i b) w) !! c
        = readyState <$> sockets w !! c) ∧
  (∀ c, connections w !! i ≠ Some c →
        frames c (exec (broadcast i b) w) = frames c w) ∧
  (∀ c s, connections w !! i = Some c → sockets w !! c = Some s →
          readyState s = OPEN →
          frames c (exec (broadcast i b) w) = sent s ++ [frame_of i b]) ∧
  (∀ c s, connections w !! i = Some c → sockets w !! c = Some s →
          readyState s ≠ OPEN → exec (broadcast i b) w = w) ∧
  (connections w !! i = None → exec (broadcast i b) w = w).
Proof.
  unfold exec. rewrite broadcast_deliver. cbn [fst snd].
  split; [done|]. split; [apply deliver_connections|].
  split; [apply deliver_rest|]. split; [apply deliver_rest|].
  split; [intros c; apply deliver_readyState|].
  split; [intros c Hc; by apply deliver_frames_other|].
  split; [|split].
  - intros c s Hi Hs Ho. unfold frames.
    by rewrite (deliver_open i _ w c s).
  - intros c s Hi Hs Ho. unfold deliver. rewrite Hi, Hs.
    by rewrite decide_False.
  - apply deliver_unsubscribed.
Qed.

(** ** Adding a geofence *)

Section GeofenceRoute.
Implicit Types (w : World) (d : Device) (env : Env) (body : GeofenceBody)
  (i : string).

Lemma post_geofence_unknown env i body w :
  devices w !! i = None →
  post_geofence env i body w =
    (Ok (GeofenceNext (ApiError 404 "Device not found")), w).
Proof.
  intros Hd. unfold post_geofence, try_catch, bind, Device_findOne, gets.
  by rewrite Hd.
Qed.

Lemma post_geofence_no_center env i body d w :
  devices w !! i = Some d → new_center body = None →
  post_geofence env i body w = (Ok (GeofenceNext TypeError), w).
Proof.
  intros Hd Hc. unfold post_geofence, try_catch, bind, Device_findOne, gets.
  by rewrite Hd, Hc.
Qed.

Lemma post_geofence_write_fails env i body d p w :
  devices w !! i = Some d → new_center body = Some p →
  device_save_ok env = false →
  post_geofence env i body w = (Ok (GeofenceNext DbError), w).
Proof.
  intros Hd Hc He.
  unfold post_geofence, try_catch, bind, Device_findOne, gets, Device_save.
  by rewrite Hd, Hc, He.
Qed.

Lemma post_geofence_added env i body d p w :
  devices w !! i = Some d → new_center body = Some p →
  device_save_ok env = true →
  post_geofence env i body w =
    (Ok (GeofenceOk (with_geofence d (new_geofence body p))),
     set_devices (<[deviceId d := with_geofence d (new_geofence body p)]>) w).
Proof.
  intros Hd Hc He.
  unfold post_geofence, try_catch, bind, Device_findOne, gets, Device_save.
  by rewrite Hd, Hc, He.
Qed.

Lemma check_geofences_frames d (p : coords) (c : Conn) (s : Socket) w :
  connections w !! deviceId d = Some c → sockets w !! c = Some s →
  readyState s = OPEN →
  frames c (exec (check_geofences d p) w) =
    sent s ++ map (event_frame (deviceId d))
                (spec_evaluate (loop_previous d) p (geofences d)).
Proof.
  intros Hi Hs Ho. unfold exec. rewrite check_geofences_broadcasts.
  fold (exec (for_of (event_broadcasts
    (spec_evaluate (loop_previous d) p (geofences d)))
    (broadcast (deviceId d))) w).
  rewrite (for_of_broadcast_open _ _ _ c s) by done.
  by rewrite frame_of_event_broadcasts.
Qed.

End GeofenceRoute.

(** X18: the geofence route, asked with a device-id that the schema's trim
    leaves as it is (so the query looks for the id itself).  An id that is not in the collection is answered with
    404, and every error answer leaves the world as it was.  For a device in
    the collection (stored under its own id), a body with a center and a
    successful write, the stored device gets the new geofence at the end of
    its list, keeps the geofences it had in their order and its last
    location, and nothing else in the world changes. *)
Theorem X18_geofence_appended (env : Env) (i : string) (body : GeofenceBody)
    (w : World) :
  unpadded i = true →
  (devices w !! i = None →
     post_geofence env i body w =
       (Ok (GeofenceNext (ApiError 404 "Device not found")), w)) ∧
  (∀ e, fst (post_geofence env i body w) = Ok (GeofenceNext e) →
        exec (post_geofence env i body) w = w) ∧
  (∀ d p, devices w !! i = Some d → deviceId d = i →
          new_center body = Some p → device_save_ok env = true →
     fst (post_geofence env i body w)
       = Ok (GeofenceOk (with_geofence d (new_geofence body p))) ∧
     devices (exec (post_geofence env i body) w) !! i
       = Some (with_geofence d (new_geofence body p)) ∧
     (∀ j, j ≠ i →
           devices (exec (post_geofence env i body) w) !! j = devices w !! j) ∧
     connections (exec (post_geofence env i body) w) = connections w ∧
     sockets (exec (post_geofence env i body) w) = sockets w ∧
     locations (exec (post_geofence env i body) w) = locations w).
Proof.
  intros _. split; [apply post_geofence_unknown|]. split.
  - intros e. unfold exec.
    destruct (devices w !! i) as [d|] eqn:Hd;
      [|by rewrite post_geofence_unknown].
    destruct (new_center body) as [p|] eqn:Hc;
      [|by rewrite (post_geofence_no_center env i body d)].
    destruct (device_save_ok env) eqn:He;
      [|by rewrite (post_geofence_write_fails env i body d p)].
    by rewrite (post_geofence_added env i body d p).
  - intros d p Hd Hi Hc He. unfold exec.
    rewrite (post_geofence_added env i body d p) by done. simpl.
    rewrite Hi. split; [done|]. split; [apply lookup_insert_eq|].
    split; [|done]. intros j Hj. by rewrite lookup_insert_ne.
Qed.

Lemma X18_witness :
  unpadded "tracker-1" = true ∧
  devices (exec (post_geofence writes_ok "tracker-1" yard)
             (world0 (tracker None))) !! "tracker-1"
    = Some (with_geofence (tracker None) (new_geofence yard (1, 1)%R)).
Proof.
  assert (H : unpadded "tracker-1" = true) by reflexivity.
  split; [exact H|].
  exact (proj1 (proj2 (proj2 (proj2
    (X18_geofence_appended writes_ok "tracker-1" yard (world0 (tracker None)) H))
    (tracker None) (1, 1)%R eq_refl eq_refl eq_refl eq_refl))).
Defined.

(** X19: adding a geofence does not disturb the loop's events for the
    geofences the device already had.  For a device with the new geofence
    pushed, the loop hands the subscribed open connection what it would hand
    it for the device as it was, followed by the event, if any, of the new
    geofence. *)
Theorem X19_new_geofence_evaluated_last (d : Device) (g : Geofence)
    (p : coords) (c : Conn) (s : Socket) (w : World) :
  connections w !! deviceId d = Some c → sockets w !! c = Some s →
  readyState s = OPEN →
  frames c (exec (check_geofences (with_geofence d g) p) w) =
    frames c (exec (check_geofences d p) w) ++
    map (event_frame (deviceId d)) (spec_evaluate (loop_previous d) p [g]).
Proof.
  intros Hi Hs Ho.
  rewrite (check_geofences_frames (with_geofence d g) p c s) by done.
  rewrite (check_geofences_frames d p c s) by done.
  change (loop_previous (with_geofence d g)) with (loop_previous d).
  change (geofences (with_geofence d g)) with (geofences d ++ [g]).
  change (deviceId (with_geofence d g)) with (deviceId d).
  unfold spec_evaluate. by rewrite omap_app, map_app, app_assoc.
Qed.

Lemma X19_witness :
  (connections (world0 (tracker None)) !! deviceId (tracker None)
     = Some viewer ∧
   sockets (world0 (tracker None)) !! viewer
     = Some {| readyState := OPEN; sent := [] |} ∧
   readyState {| readyState := OPEN; sent := [] |} = OPEN) ∧
  frames viewer
    (exec (check_geofences
             (with_geofence (tracker None) (new_geofence yard (1, 1)%R))
             (0, 0)%R)
       (world0 (tracker None))) =
  frames viewer (exec (check_geofences (tracker None) (0, 0)%R)
                   (world0 (tracker None))) ++
  map (event_frame "tracker-1")
    (spec_evaluate (loop_previous (tracker None)) (0, 0)%R
       [new_geofence yard (1, 1)%R]).
Proof.
  assert (H1 : connections (world0 (tracker None)) !! deviceId (tracker None)
               = Some viewer) by reflexivity.
  assert (H2 : sockets (world0 (tracker None)) !! viewer
               = Some {| readyState := OPEN; sent := [] |}) by reflexivity.
  assert (H3 : readyState {| readyState := OPEN; sent := [] |} = OPEN)
    by reflexivity.
  split; [done|].
  exact (X19_new_geofence_evaluated_last (tracker None)
           (new_geofence yard (1, 1)%R) (0, 0)%R viewer _
           (world0 (tracker None)) H1 H2 H3).
Defined.

(** X20: closing a connection that holds no subscription changes nothing. *)
Theorem X20_close_without_subscription (ws : Conn) (w : World) :
  (∀ i, connections w !! i ≠ Some ws) → exec (on_close ws) w = w.
Proof.
  intros Hno. apply World_eq; try done.
  apply map_eq. intros i. rewrite on_close_lookup.
  case_decide as Hi; [by destruct (Hno i) | done].
Qed.

Lemma X20_witness :
  (∀ i, connections (world0 (tracker None)) !! i ≠ Some 3) ∧
  exec (on_close 3) (world0 (tracker None)) = world0 (tracker None).
Proof.
  assert (H : ∀ i, connections (world0 (tracker None)) !! i ≠ Some 3).
  { intros i. simpl. destruct (decide (i = "tracker-1")) as [->|Hi].
    - rewrite lookup_singleton_eq. unfold viewer. congruence.
    - by rewrite lookup_singleton_ne. }
  split; [exact H|].
  exact (X20_close_without_subscription 3 (world0 (tracker None)) H).
Defined.

(** X21: subscribe, then ingest: after an open connection subscribes to a
    device of the collection, an accepted fix for that device hands the
    connection a [location_update] with the coordinates of the fix, right
    after the [subscribed] acknowledgement. *)
Theorem X21_subscriber_gets_update (ws : Conn) (d d0 : Device) (body : Body)
    (lon lat : R) (s : Socket) (env : Env) (w : World) :
  deviceId d ≠ "" → devices w !! deviceId d = Some d0 →
  sockets w !! ws = Some s → readyState s = OPEN →
  coordinates body = Array [lon; lat] →
  location_save_ok env = true → device_save_ok env = true →
  frames ws (exec (post_location env d body)
               (exec (on_message ws (subscribe_frame (deviceId d))) w)) =
    sent s ++ [subscribed (deviceId d);
               location_update (deviceId d)
                 (location_data env body (lon, lat))].
Proof.
  intros Hi Hd Hs Ho Hc Hl Hw.
  set (w1 := exec (on_message ws (subscribe_frame (deviceId d))) w).
  assert (E : w1 = set_sockets (alter (push (subscribed (deviceId d))) ws)
                     (set_connections (<[deviceId d := ws]>) w)).
  { subst w1. unfold exec. by rewrite (subscribe_known _ ws d0). }
  assert (Hreg : connections w1 !! deviceId d = Some ws).
  { rewrite E. simpl. apply lookup_insert_eq. }
  assert (Hs1 : sockets w1 !! ws = Some (push (subscribed (deviceId d)) s)).
  { rewrite E. simpl. by rewrite lookup_alter_eq, Hs. }
  rewrite (post_location_frames env d body lon lat ws
             (push (subscribed (deviceId d)) s)) by done.
  simpl. by rewrite <- app_assoc.
Qed.

Lemma X21_witness :
  (deviceId (tracker None) ≠ "" ∧
   devices (world0 (tracker None)) !! deviceId (tracker None)
     = Some (tracker None) ∧
   sockets (world0 (tracker None)) !! 7
     = Some {| readyState := OPEN; sent := [] |} ∧
   readyState {| readyState := OPEN; sent := [] |} = OPEN ∧
   coordinates (fix_at 0 90) = Array [0%R; 90%R] ∧
   location_save_ok writes_ok = true ∧ device_save_ok writes_ok = true) ∧
  frames 7 (exec (post_location writes_ok (tracker None) (fix_at 0 90))
              (exec (on_message 7 (subscribe_frame "tracker-1"))
                 (world0 (tracker None)))) =
    [] ++ [subscribed "tracker-1";
           location_update "tracker-1"
             (location_data writes_ok (fix_at 0 90) (0, 90)%R)].
Proof.
  assert (H1 : deviceId (tracker None) ≠ "") by discriminate.
  assert (H2 : devices (world0 (tracker None)) !! deviceId (tracker None)
               = Some (tracker None)) by reflexivity.
  assert (H3 : sockets (world0 (tracker None)) !! 7
               = Some {| readyState := OPEN; sent := [] |}) by reflexivity.
  assert (H4 : readyState {| readyState := OPEN; sent := [] |} = OPEN)
    by reflexivity.
  assert (H5 : coordinates (fix_at 0 90) = Array [0%R; 90%R]) by reflexivity.
  assert (H6 : location_save_ok writes_ok = true) by reflexivity.
  assert (H7 : device_save_ok writes_ok = true) by reflexivity.
  split; [done|].
  exact (X21_subscriber_gets_update 7 (tracker None) (tracker None)
           (fix_at 0 90) 0 90 _ writes_ok (world0 (tracker None))
           H1 H2 H3 H4 H5 H6 H7).
Defined.
